(** * UPELIB TELNET front end: CTerminalLine and CTerminalServer

    A shallow embedding of [TerminalLine.cpp] / [TerminalServer.cpp] and the
    properties of the TELNET engine and of the line table proved about it.

    Conventions of the embedding.
    - [uint8_t] values are [Z]; the engine only compares them with constants,
      so no arithmetic (and no wrap-around) is ever performed on them.
    - Line numbers ([uint32_t]) are [nat]: they index [m_apLines], the only
      arithmetic on them is the [++nLine] of a loop bounded by
      [m_nMaxLines <= 64].
    - Socket handles ([intptr_t]) are [Z].
    - Everything the code does to the outside world (host callbacks,
      [send], [closesocket], the server mutex) is appended to a trace of
      [Event]s, in program order.  [LOGS]/[LOGF] lines go to the log sink
      and are left out; [m_lCallbackParam] is an opaque cookie handed back
      to the host unchanged and is left out of the events.
    - [assert] is modelled as checked (a debug build): a failing assertion
      ends the call with [AssertFailed].  [std::vector::at] out of range
      ends it with [OutOfRange]. *)

From Stdlib Require Import ZArith List Lia Bool.
From stdpp Require Import base option list gmap.
Import ListNotations.

(** ** Constants of [TerminalLine.hpp], [TerminalServer.hpp], [UPELIB.hpp] *)

Module K.
Local Open Scope Z_scope.
Definition IAC_WILL : Z := 251.
Definition IAC_WONT : Z := 252.
Definition IAC_DO   : Z := 253.
Definition IAC_DONT : Z := 254.
Definition IAC      : Z := 255.
Definition OPT_ECHO : Z := 1.
Definition OPT_SGA  : Z := 3.
Definition CHNUL    : Z := 0.
Definition CHLFD    : Z := 10.
Definition CHCRT    : Z := 13.
Definition SOCKET_ERROR   : Z := -1.
Definition INVALID_SOCKET : Z := -1.
End K.

Definition DEFAULT_LINES : nat := 64.
Definition MAXRECV : nat := 1024.

Definition is_uint8 (ch : Z) : Prop := (0 <= ch < 256)%Z.

(** ** The data model *)

(** [enum _TELNET_STATES] *)
Inductive TELNET_STATE : Type :=
| STA_NORMAL | STA_IAC_RCVD | STA_WILL_RCVD | STA_WONT_RCVD
| STA_DO_RCVD | STA_DONT_RCVD | STA_CR_LAST.

(** [enum _OPTION_STATES]; [OPT_WAITING] is the spec's "Negotiating". *)
Inductive OPTION_STATE : Type :=
| OPT_DISABLED | OPT_ENABLED | OPT_WAITING.

Definition TELNET_STATE_eqb (a b : TELNET_STATE) : bool :=
  match a, b with
  | STA_NORMAL, STA_NORMAL | STA_IAC_RCVD, STA_IAC_RCVD
  | STA_WILL_RCVD, STA_WILL_RCVD | STA_WONT_RCVD, STA_WONT_RCVD
  | STA_DO_RCVD, STA_DO_RCVD | STA_DONT_RCVD, STA_DONT_RCVD
  | STA_CR_LAST, STA_CR_LAST => true
  | _, _ => false
  end.

Definition OPTION_STATE_eqb (a b : OPTION_STATE) : bool :=
  match a, b with
  | OPT_DISABLED, OPT_DISABLED | OPT_ENABLED, OPT_ENABLED
  | OPT_WAITING, OPT_WAITING => true
  | _, _ => false
  end.

(** The members of [class CTerminalLine] (the back reference [m_Server] is
    only used to reach [ReceiveCallback]). *)
Record CTerminalLine : Type := mkLine {
  m_nLine        : nat;
  m_ClientSocket : Z;
  m_lClientIP    : Z;
  m_nClientPort  : Z;
  m_staCurrent   : TELNET_STATE;
  m_optLocalEcho : OPTION_STATE;
  m_optLocalSGA  : OPTION_STATE;
  m_optRemoteSGA : OPTION_STATE
}.

(** Assignments to one member. *)
Definition with_staCurrent (s : TELNET_STATE) (l : CTerminalLine) : CTerminalLine :=
  mkLine (m_nLine l) (m_ClientSocket l) (m_lClientIP l) (m_nClientPort l)
         s (m_optLocalEcho l) (m_optLocalSGA l) (m_optRemoteSGA l).
Definition with_optLocalEcho (o : OPTION_STATE) (l : CTerminalLine) : CTerminalLine :=
  mkLine (m_nLine l) (m_ClientSocket l) (m_lClientIP l) (m_nClientPort l)
         (m_staCurrent l) o (m_optLocalSGA l) (m_optRemoteSGA l).
Definition with_optLocalSGA (o : OPTION_STATE) (l : CTerminalLine) : CTerminalLine :=
  mkLine (m_nLine l) (m_ClientSocket l) (m_lClientIP l) (m_nClientPort l)
         (m_staCurrent l) (m_optLocalEcho l) o (m_optRemoteSGA l).
Definition with_optRemoteSGA (o : OPTION_STATE) (l : CTerminalLine) : CTerminalLine :=
  mkLine (m_nLine l) (m_ClientSocket l) (m_lClientIP l) (m_nClientPort l)
         (m_staCurrent l) (m_optLocalEcho l) (m_optLocalSGA l) o.

(** What a call does to the world outside the two classes. *)
Inductive Event : Type :=
| EvReceive (nLine : nat) (ch : Z)
    (** the receive callback called with [(nLine, ch)] *)
| EvSend (skt : Z) (abData : list Z)
    (** [send(skt, abData, cbData, 0)] *)
| EvConnect (nLine : nat) (apLines : list (option CTerminalLine))
    (** the connect callback called with [nLine], and the line table
        it finds when it runs *)
| EvDisconnect (nLine : nat) (apLines : list (option CTerminalLine))
    (** the disconnect callback called with [nLine], likewise *)
| EvCloseSocket (skt : Z)
    (** [closesocket(skt)] *)
| EvLock
    (** [m_pLock->Enter()] *)
| EvUnlock.
    (** [m_pLock->Leave()] *)

(** Projections of a trace. *)
Definition delivered (tr : list Event) : list Z :=
  flat_map (fun e => match e with EvReceive _ ch => [ch] | _ => [] end) tr.

Definition outbound (tr : list Event) : list (list Z) :=
  flat_map (fun e => match e with EvSend _ d => [d] | _ => [] end) tr.

Definition closed_sockets (tr : list Event) : list Z :=
  flat_map (fun e => match e with EvCloseSocket s => [s] | _ => [] end) tr.

Definition disconnect_calls (tr : list Event) : list nat :=
  flat_map (fun e => match e with EvDisconnect n _ => [n] | _ => [] end) tr.

Definition connect_calls (tr : list Event) : list nat :=
  flat_map (fun e => match e with EvConnect n _ => [n] | _ => [] end) tr.

(** ** CTerminalLine: the TELNET engine *)

Module Line.
Local Open Scope Z_scope.
Import K.

(** A method of [CTerminalLine]: it reads and updates the object and
    appends to the trace. *)
Definition Telnet (A : Type) : Type :=
  CTerminalLine -> A * CTerminalLine * list Event.

Definition ret {A} (a : A) : Telnet A := fun l => (a, l, []).

Definition bind {A B} (m : Telnet A) (k : A -> Telnet B) : Telnet B :=
  fun l =>
    let '(a, l1, t1) := m l in
    let '(b, l2, t2) := k a l1 in
    (b, l2, t1 ++ t2).

Declare Scope telnet_scope.
Delimit Scope telnet_scope with telnet.
Notation "'let*' x ':=' m 'in' k" := (bind m (fun x => k))
  (at level 10, x name, m at level 100, k at level 200) : telnet_scope.
Notation "m '>>' k" := (bind m (fun _ => k))
  (at level 90, right associativity) : telnet_scope.
Local Open Scope telnet_scope.

Definition this : Telnet CTerminalLine := fun l => (l, l, []).
Definition emit (e : Event) : Telnet unit := fun l => (tt, l, [e]).
Definition when (b : bool) (m : Telnet unit) : Telnet unit :=
  if b then m else ret tt.

Definition set_staCurrent (s : TELNET_STATE) : Telnet unit :=
  fun l => (tt, with_staCurrent s l, []).
Definition set_optLocalEcho (o : OPTION_STATE) : Telnet unit :=
  fun l => (tt, with_optLocalEcho o l, []).
Definition set_optLocalSGA (o : OPTION_STATE) : Telnet unit :=
  fun l => (tt, with_optLocalSGA o l, []).
Definition set_optRemoteSGA (o : OPTION_STATE) : Telnet unit :=
  fun l => (tt, with_optRemoteSGA o l, []).

(** The constructor; [peer] is what [getpeername] answers ([None] when it
    fails), already in host byte order. *)
Definition new (nLine : nat) (skt : Z) (peer : option (Z * Z)) : CTerminalLine :=
  mkLine nLine skt
         (match peer with Some (ip, _) => ip | None => 0 end)
         (match peer with Some (_, port) => port | None => 0 end)
         STA_NORMAL OPT_ENABLED OPT_DISABLED OPT_DISABLED.

(** [m_Server.ReceiveCallback(m_nLine, ch)].  The server asserts that its
    receive callback is not NULL; its constructor has already checked
    that (see [Server.new]). *)
Definition ReceiveCallback (ch : Z) : Telnet unit :=
  let* l := this in emit (EvReceive (m_nLine l) ch).

(** [SocketWrite]: one [send] on the client socket.  Its [bool] result
    comes from the OS; the callers modelled here use it only to pick a
    log line. *)
Definition SocketWrite (abData : list Z) : Telnet unit :=
  let* l := this in emit (EvSend (m_ClientSocket l) abData).

Definition SendCommand (nCommand nOption : Z) : Telnet unit :=
  SocketWrite [IAC; nCommand; nOption].
Definition SendWill (nOption : Z) : Telnet unit := SendCommand IAC_WILL nOption.
Definition SendWont (nOption : Z) : Telnet unit := SendCommand IAC_WONT nOption.
Definition SendDo   (nOption : Z) : Telnet unit := SendCommand IAC_DO nOption.
Definition SendDont (nOption : Z) : Telnet unit := SendCommand IAC_DONT nOption.

Definition HandleWill (nOption : Z) : Telnet unit :=
  if nOption =? OPT_SGA then
    let* l := this in
    when (negb (OPTION_STATE_eqb (m_optRemoteSGA l) OPT_WAITING)) (SendDo OPT_SGA) >>
    set_optRemoteSGA OPT_ENABLED
  else
    SendDont nOption.

Definition HandleWont (nOption : Z) : Telnet unit := ret tt.

Definition HandleDo (nOption : Z) : Telnet unit :=
  if nOption =? OPT_SGA then
    let* l := this in
    when (negb (OPTION_STATE_eqb (m_optLocalSGA l) OPT_WAITING)) (SendWill OPT_SGA) >>
    set_optLocalSGA OPT_ENABLED
  else if nOption =? OPT_ECHO then
    let* l := this in
    match m_optLocalEcho l with
    | OPT_WAITING  => set_optLocalEcho OPT_DISABLED
    | OPT_ENABLED  => SendWont OPT_ECHO
    | OPT_DISABLED => SendWill OPT_ECHO
    end
  else
    SendWont nOption.

Definition HandleDont (nOption : Z) : Telnet unit :=
  if nOption =? OPT_SGA then ret tt
  else if nOption =? OPT_ECHO then set_optLocalEcho OPT_ENABLED
  else ret tt.

Definition NextState (ch : Z) : Telnet TELNET_STATE :=
  let* l := this in
  match m_staCurrent l with
  | STA_NORMAL => ret (if ch =? IAC then STA_IAC_RCVD else STA_NORMAL)
  | STA_CR_LAST =>
      when (negb (ch =? CHNUL) && negb (ch =? CHLFD)) (ReceiveCallback ch) >>
      ret STA_NORMAL
  | STA_IAC_RCVD =>
      if ch =? IAC_WILL then ret STA_WILL_RCVD
      else if ch =? IAC_WONT then ret STA_WONT_RCVD
      else if ch =? IAC_DO then ret STA_DO_RCVD
      else if ch =? IAC_DONT then ret STA_DONT_RCVD
      else if ch =? IAC then ReceiveCallback ch >> ret STA_NORMAL
      else ret STA_NORMAL
  | STA_WILL_RCVD => HandleWill ch >> ret STA_NORMAL
  | STA_WONT_RCVD => HandleWont ch >> ret STA_NORMAL
  | STA_DO_RCVD   => HandleDo ch >> ret STA_NORMAL
  | STA_DONT_RCVD => HandleDont ch >> ret STA_NORMAL
  end.

Definition Receive (ch : Z) : Telnet unit :=
  let* l := this in
  if TELNET_STATE_eqb (m_staCurrent l) STA_NORMAL && negb (ch =? IAC) then
    when (negb (ch =? CHNUL)) (ReceiveCallback ch) >>
    when (ch =? CHCRT) (set_staCurrent STA_CR_LAST)
  else
    let* s := NextState ch in set_staCurrent s.

Definition SetLocalEcho (fEcho : bool) : Telnet unit :=
  let* l := this in
  if OPTION_STATE_eqb (m_optLocalEcho l) OPT_WAITING then ret tt
  else if fEcho then
    if OPTION_STATE_eqb (m_optLocalEcho l) OPT_ENABLED then ret tt
    else SendWont OPT_ECHO >> set_optLocalEcho OPT_WAITING
  else
    if OPTION_STATE_eqb (m_optLocalEcho l) OPT_DISABLED then ret tt
    else SendWill OPT_ECHO >> set_optLocalEcho OPT_WAITING.

Definition SuppressGoAhead : Telnet unit :=
  (let* l := this in
   when (negb (OPTION_STATE_eqb (m_optLocalSGA l) OPT_ENABLED))
        (SendWill OPT_SGA >> set_optLocalSGA OPT_WAITING)) >>
  (let* l := this in
   when (negb (OPTION_STATE_eqb (m_optRemoteSGA l) OPT_ENABLED))
        (SendDo OPT_SGA >> set_optRemoteSGA OPT_WAITING)).

(** [for (i = 0; i < cbBuffer; ++i) pLine->Receive(szBuffer[i])] over the
    bytes received. *)
Fixpoint ReceiveAll (bs : list Z) : Telnet unit :=
  match bs with
  | [] => ret tt
  | ch :: rest => Receive ch >> ReceiveAll rest
  end.

(** Running a method: the object afterwards and the trace. *)
Definition exec {A} (m : Telnet A) (l : CTerminalLine) : CTerminalLine * list Event :=
  let '(_, l', tr) := m l in (l', tr).

End Line.

(** ** CTerminalServer: the line table and the socket events *)

(** How a call can end without returning. *)
Inductive Failure : Type :=
| AssertFailed   (** an [assert] did not hold *)
| OutOfRange.    (** [std::vector::at] threw [std::out_of_range] *)

Inductive outcome (A : Type) : Type :=
| Done (a : A)
| Fail (f : Failure).
Arguments Done {A} a.
Arguments Fail {A} f.

(** The members of [class CTerminalServer] that the table operations use.
    A callback pointer is [None]/[false] when it is NULL.  The connect
    callback is the host's decision for a line number. *)
Record CTerminalServer : Type := mkServer {
  m_nMaxLines           : nat;
  m_apLines             : list (option CTerminalLine);
  m_mapSocket           : gmap Z nat;
  m_pConnectCallback    : option (nat -> bool);
  m_pDisconnectCallback : bool;
  m_pReceiveCallback    : bool
}.

Definition with_apLines (v : list (option CTerminalLine)) (s : CTerminalServer) : CTerminalServer :=
  mkServer (m_nMaxLines s) v (m_mapSocket s) (m_pConnectCallback s)
           (m_pDisconnectCallback s) (m_pReceiveCallback s).
Definition with_mapSocket (m : gmap Z nat) (s : CTerminalServer) : CTerminalServer :=
  mkServer (m_nMaxLines s) (m_apLines s) m (m_pConnectCallback s)
           (m_pDisconnectCallback s) (m_pReceiveCallback s).

Module Server.
Import K.

(** A method of [CTerminalServer]. *)
Definition Srv (A : Type) : Type :=
  CTerminalServer -> outcome (A * CTerminalServer * list Event).

Definition ret {A} (a : A) : Srv A := fun s => Done (a, s, []).

Definition bind {A B} (m : Srv A) (k : A -> Srv B) : Srv B :=
  fun s =>
    match m s with
    | Fail f => Fail f
    | Done (a, s1, t1) =>
        match k a s1 with
        | Fail f => Fail f
        | Done (b, s2, t2) => Done (b, s2, t1 ++ t2)
        end
    end.

Declare Scope srv_scope.
Delimit Scope srv_scope with srv.
Notation "'let*' x ':=' m 'in' k" := (bind m (fun x => k))
  (at level 10, x name, m at level 100, k at level 200) : srv_scope.
Notation "m '>>' k" := (bind m (fun _ => k))
  (at level 90, right associativity) : srv_scope.
Local Open Scope srv_scope.

Definition this : Srv CTerminalServer := fun s => Done (s, s, []).
Definition emit (e : Event) : Srv unit := fun s => Done (tt, s, [e]).
Definition throw {A} (f : Failure) : Srv A := fun _ => Fail f.
Definition assert (b : bool) : Srv unit :=
  if b then ret tt else throw AssertFailed.
Definition when (b : bool) (m : Srv unit) : Srv unit :=
  if b then m else ret tt.

Definition set_apLines (v : list (option CTerminalLine)) : Srv unit :=
  fun s => Done (tt, with_apLines v s, []).
Definition set_mapSocket (m : gmap Z nat) : Srv unit :=
  fun s => Done (tt, with_mapSocket m s, []).

(** [m_apLines[n] = p] on an index that a preceding [Line(n)] has found
    in range. *)
Definition store_line (n : nat) (p : option CTerminalLine) : Srv unit :=
  let* s := this in set_apLines (<[n := p]> (m_apLines s)).

(** The constructor.  [fServerExists] tells whether the static
    [m_pServer] is already set; the two callback arguments that may be
    NULL are passed as they are stored. *)
Definition new (fServerExists : bool) (pReceive : bool)
    (pConnect : option (nat -> bool)) (pDisconnect : bool)
    (nMaxLines : nat) : outcome CTerminalServer :=
  if fServerExists then Fail AssertFailed
  else if negb ((0 <? nMaxLines) && (nMaxLines <=? DEFAULT_LINES)) then Fail AssertFailed
  else if negb pReceive then Fail AssertFailed
  else Done (mkServer nMaxLines (replicate nMaxLines None) ∅
                      pConnect pDisconnect pReceive).

Definition MaximumLines (s : CTerminalServer) : nat := length (m_apLines s).
Definition ActiveLines (s : CTerminalServer) : nat := size (m_mapSocket s).

(** [Line(n)] is [m_apLines.at(n)]. *)
Definition Line (n : nat) : Srv (option CTerminalLine) :=
  let* s := this in
  match m_apLines s !! n with
  | Some p => ret p
  | None => throw OutOfRange
  end.

Definition IsSocketConnected (skt : Z) (s : CTerminalServer) : bool :=
  bool_decide (is_Some (m_mapSocket s !! skt)).

(** [SocketToLine(skt)] is [m_mapSocket[skt]]: [operator[]] of
    [std::unordered_map] value-initialises and inserts a missing key. *)
Definition SocketToLine (skt : Z) : Srv nat :=
  let* s := this in
  match m_mapSocket s !! skt with
  | Some n => ret n
  | None => set_mapSocket (<[skt := 0]> (m_mapSocket s)) >> ret 0
  end.

Definition LockServer : Srv unit := emit EvLock.
Definition UnlockServer : Srv unit := emit EvUnlock.

Definition Disconnect (nLine : nat) : Srv unit :=
  let* pLine := Line nLine in
  match pLine with
  | None => throw AssertFailed
  | Some line =>
      let* s := this in
      when (m_pDisconnectCallback s) (emit (EvDisconnect nLine (m_apLines s))) >>
      let sktClient := m_ClientSocket line in
      emit (EvCloseSocket sktClient) >>
      store_line nLine None >>
      (let* s := this in set_mapSocket (delete sktClient (m_mapSocket s))) >>
      UnlockServer
  end.

(** [for (nLine = 0; nLine < m_nMaxLines; ++nLine) if (Line(nLine) == NULL) break;]
    with [remaining] the iterations left, [m_nMaxLines - nLine]. *)
Fixpoint FindFreeLine (remaining nLine : nat) : Srv nat :=
  match remaining with
  | O => ret nLine
  | S r =>
      let* p := Line nLine in
      match p with
      | None => ret nLine
      | Some _ => FindFreeLine r (S nLine)
      end
  end.

(** The code at the label [failed:]. *)
Definition SocketAccept_failed (nLine : nat) (sktClient : Z) : Srv unit :=
  let* s := this in
  when (nLine <? m_nMaxLines s) (store_line nLine None) >>
  emit (EvCloseSocket sktClient) >>
  UnlockServer.

(** [SocketAccept]; the arguments are what the OS answers: [sktClient]
    from [accept], [nResult] from [WSAAsyncSelect], [peer] from the
    [getpeername] of the line constructor. *)
Definition SocketAccept (sktClient : Z) (nResult : Z) (peer : option (Z * Z)) : Srv unit :=
  if (sktClient =? INVALID_SOCKET)%Z then ret tt
  else
    LockServer >>
    let* s := this in
    if negb (nResult =? 0)%Z then SocketAccept_failed (m_nMaxLines s) sktClient
    else
      let* nLine := FindFreeLine (m_nMaxLines s) 0 in
      if m_nMaxLines s <=? nLine then SocketAccept_failed nLine sktClient
      else
        let pLine := Line.new nLine sktClient peer in
        store_line nLine (Some pLine) >>
        let* s1 := this in
        let* fRefused :=
          match m_pConnectCallback s1 with
          | Some cb => emit (EvConnect nLine (m_apLines s1)) >> ret (negb (cb nLine))
          | None => ret false
          end in
        if fRefused then SocketAccept_failed nLine sktClient
        else
          store_line nLine (Some pLine) >>
          (let* s2 := this in set_mapSocket (<[sktClient := nLine]> (m_mapSocket s2))) >>
          UnlockServer.

(** Run a method of the line object in slot [nLine] ([pLine->...]). *)
Definition on_line (nLine : nat) (pLine : CTerminalLine) (m : Line.Telnet unit) : Srv unit :=
  fun s =>
    let '(_, pLine', tr) := m pLine in
    match store_line nLine (Some pLine') s with
    | Done (_, s', _) => Done (tt, s', tr)
    | Fail f => Fail f
    end.

(** [SocketRead]; [cbBuffer] is what [recv] returns and [szBuffer] the
    buffer it filled. *)
Definition SocketRead (skt : Z) (cbBuffer : Z) (szBuffer : list Z) : Srv unit :=
  let* nLine := SocketToLine skt in
  let* pLine := Line nLine in
  match pLine with
  | None => throw AssertFailed
  | Some line =>
      if (cbBuffer =? SOCKET_ERROR)%Z then ret tt
      else if (cbBuffer =? 0)%Z then Disconnect nLine
      else on_line nLine line (Line.ReceiveAll (take (Z.to_nat cbBuffer) szBuffer))
  end.

(** The table invariant that the constructor sets up. *)
Definition sized (s : CTerminalServer) : Prop :=
  length (m_apLines s) = m_nMaxLines s.

End Server.

(** * Vocabulary of the statements *)

(** A line as the constructor leaves it, on socket 7. *)
Definition line0 : CTerminalLine := Line.new 0 7 None.

(** The option state a call of SetLocalEcho asks for. *)
Definition wanted (fEcho : bool) : OPTION_STATE :=
  if fEcho then OPT_ENABLED else OPT_DISABLED.

(** What SuppressGoAhead does to one direction of the SGA option. *)
Definition sga_after (o : OPTION_STATE) : OPTION_STATE :=
  match o with OPT_ENABLED => OPT_ENABLED | _ => OPT_WAITING end.
Definition sga_sent (skt : Z) (o : OPTION_STATE) (nCommand : Z) : list Event :=
  match o with OPT_ENABLED => [] | _ => [EvSend skt [K.IAC; nCommand; K.OPT_SGA]] end.

(** Slot [i] of the line table holds a line. *)
Definition is_occupied (v : list (option CTerminalLine)) (i : nat) : bool :=
  match v !! i with Some (Some _) => true | _ => false end.

(** [n] is the lowest-numbered empty slot. *)
Definition lowest_free (v : list (option CTerminalLine)) (n : nat) : Prop :=
  v !! n = Some None /\ forall i, i < n -> is_occupied v i = true.

(** Every slot holds a line. *)
Definition full (v : list (option CTerminalLine)) : Prop :=
  forall i, i < length v -> is_occupied v i = true.

(** The connect callback, if there is one, lets line [n] in. *)
Definition accepted (s : CTerminalServer) (n : nat) : Prop :=
  match m_pConnectCallback s with Some cb => cb n = true | None => True end.

(** A two-line server with line 0 connected on socket 7, and the same
    server with both lines connected. *)
Definition srv_one : CTerminalServer :=
  mkServer 2 [Some line0; None] {[ 7%Z := 0 ]} None true true.
Definition srv_full : CTerminalServer :=
  mkServer 2 [Some line0; Some (Line.new 1 8 None)]
           (<[ 8%Z := 1 ]> {[ 7%Z := 0 ]}) (Some (fun _ => true)) true true.

(** The part of the server that no call may change: the configured
    maximum and the size of the line table. *)
Definition same_shape (s s' : CTerminalServer) : Prop :=
  m_nMaxLines s' = m_nMaxLines s /\ length (m_apLines s') = length (m_apLines s).

Definition preserves_shape {A} (m : Server.Srv A) : Prop :=
  forall s a s' tr, m s = Done (a, s', tr) -> same_shape s s'.

(** One completed call of a public entry point, or of a method of a
    connected line. *)
Inductive server_step : CTerminalServer -> CTerminalServer -> Prop :=
| step_accept skt nResult peer s s' tr :
    Server.SocketAccept skt nResult peer s = Done (tt, s', tr) -> server_step s s'
| step_read skt cbBuffer szBuffer s s' tr :
    Server.SocketRead skt cbBuffer szBuffer s = Done (tt, s', tr) -> server_step s s'
| step_disconnect nLine s s' tr :
    Server.Disconnect nLine s = Done (tt, s', tr) -> server_step s s'
| step_lookup skt nLine s s' tr :
    Server.SocketToLine skt s = Done (nLine, s', tr) -> server_step s s'
| step_line nLine pLine m s s' tr :
    m_apLines s !! nLine = Some (Some pLine) ->
    Server.on_line nLine pLine m s = Done (tt, s', tr) -> server_step s s'.

(** * The rest of the two classes *)

(** ** Sending: [Send], [SendFile] and the text file behind it *)

Module LineIO.
Import K Line.
Local Open Scope Z_scope.
Local Open Scope telnet_scope.

(** [SocketWrite] with its result: [cb] is what [send] answers (the number
    of bytes it took, or [SOCKET_ERROR]), and the result is [cb == cbData]. *)
Definition SocketWrite_result (abData : list Z) (cb : Z) : Telnet bool :=
  let* l := this in
  emit (EvSend (m_ClientSocket l) abData) >>
  ret (cb =? Z.of_nat (length abData)).

(** [Send(abData, cbData)]: the data goes out as it is. *)
Definition Send (abData : list Z) (cb : Z) : Telnet bool :=
  SocketWrite_result abData cb.

(** The characters of the C string in a buffer: those before the first NUL
    ([strlen], and so [Send] on a C string, see no further). *)
Fixpoint c_str (buf : list Z) : list Z :=
  match buf with
  | [] => []
  | c :: rest => if c =? CHNUL then [] else c :: c_str rest
  end.

(** [fgets] on a stream of characters still to come: at most [n]
    characters, up to and including the first newline. *)
Fixpoint fgets_chars (n : nat) (stream : list Z) : list Z * list Z :=
  match n, stream with
  | S k, c :: rest =>
      if c =? CHLFD then ([c], rest)
      else let '(buf, rest') := fgets_chars k rest in (c :: buf, rest')
  | _, _ => ([], stream)
  end.

(** [CTextInputFile::Read(pszBuffer, cbBuffer)]: [fgets] reads at most
    [cbBuffer - 1] characters and answers NULL at the end of the stream (or
    on a read error, which ends the stream).  [None] is the [false] result;
    otherwise the buffer and the rest of the stream. *)
Definition Read (cbBuffer : nat) (stream : list Z) : outcome (option (list Z * list Z)) :=
  if negb (2 <? cbBuffer)%nat then Fail AssertFailed
  else match stream with
       | [] => Done None
       | _ :: _ => Done (Some (fgets_chars (cbBuffer - 1) stream))
       end.

(** Overwriting a final newline of a C string with NUL. *)
Definition strip_newline (sz : list Z) : list Z :=
  match last sz with
  | Some c => if c =? CHLFD then removelast sz else sz
  | None => sz
  end.

(** [CTextInputFile::ReadLine(pszLine, cbLine)]: the C string left in the
    buffer, and the rest of the stream. *)
Definition ReadLine (cbLine : nat) (stream : list Z) : outcome (option (list Z * list Z)) :=
  if negb (2 <? cbLine)%nat then Fail AssertFailed
  else match Read cbLine stream with
       | Fail f => Fail f
       | Done None => Done None
       | Done (Some (buf, rest)) => Done (Some (strip_newline (c_str buf), rest))
       end.

(** The loop of [SendFile]: [sz] is [char sz[256]] and each line is read
    with [in.ReadLine(sz, sizeof(sz)-1)].  [os_send k abData] is what the
    OS answers to the [k]-th [send] of the call, [nSent] counts the calls
    made so far, and [fuel] bounds the iterations (each one consumes at
    least one character of the stream, see [SendFile]). *)
Fixpoint SendFile_loop (os_send : nat -> list Z -> Z) (fuel : nat)
    (stream : list Z) (nSent : nat) : Telnet bool :=
  match fuel with
  | O => ret true
  | S fuel' =>
      match ReadLine 255 stream with
      | Done (Some (sz, rest)) =>
          let* ok1 := Send sz (os_send nSent sz) in
          if ok1 then
            let* ok2 := Send [CHCRT; CHLFD] (os_send (S nSent) [CHCRT; CHLFD]) in
            if ok2 then SendFile_loop os_send fuel' rest (S (S nSent))
            else ret false
          else ret false
      | _ => ret true
      end
  end.

(** [SendFile(sFileName)]: [file] is [None] when [in.Open] fails and
    otherwise the characters the file delivers in text mode.  The file
    name itself is not modelled; [Open] asserts that it is not empty. *)
Definition SendFile (file : option (list Z)) (os_send : nat -> list Z -> Z) : Telnet bool :=
  match file with
  | None => ret false
  | Some stream => SendFile_loop os_send (S (length stream)) stream 0
  end.

(** An OS that takes every write in full. *)
Definition takes_all (os_send : nat -> list Z -> Z) : Prop :=
  forall k abData, os_send k abData = Z.of_nat (length abData).

(** A text file made of the given lines, each ended by a newline. *)
Definition text_of_lines (lines : list (list Z)) : list Z :=
  flat_map (fun line => line ++ [CHLFD]) lines.

(** A line that fits the buffer of [SendFile] together with its newline and
    holds neither NUL nor newline. *)
Definition plain_line (line : list Z) : Prop :=
  (length line <= 253)%nat /\ Forall (fun c => c <> CHNUL /\ c <> CHLFD) line.

(** The writes of a text file whose lines are sent whole. *)
Definition writes_of_lines (skt : Z) (lines : list (list Z)) : list Event :=
  flat_map (fun line => [EvSend skt line; EvSend skt [CHCRT; CHLFD]]) lines.

End LineIO.

(** ** Addresses: [FormatIPaddress] and the packing of [ParseIPaddress] *)

Module Net.
Local Open Scope Z_scope.

(** The four numbers [FormatIPaddress] passes to [sprintf_s]. *)
Definition ip_octets (lIP : Z) : Z * Z * Z * Z :=
  (Z.land (Z.shiftr lIP 24) 255, Z.land (Z.shiftr lIP 16) 255,
   Z.land (Z.shiftr lIP 8) 255, Z.land lIP 255).

(** The value [ParseIPaddress] stores in [lIP] from the four numbers that
    [sscanf_s] has read. *)
Definition ip_pack (a b c d : Z) : Z :=
  Z.lor (Z.lor (Z.lor (Z.shiftl (Z.land a 255) 24) (Z.shiftl (Z.land b 255) 16))
               (Z.shiftl (Z.land c 255) 8))
        (Z.land d 255).

End Net.

(** ** Stopping the server and the window procedure *)

Module ServerEvents.
Import K Server.
Local Open Scope srv_scope.

(** [IsLineConnected(n)] is [m_apLines[n] != NULL], for [n] inside the
    table. *)
Definition IsLineConnected (n : nat) (s : CTerminalServer) : bool :=
  is_occupied (m_apLines s) n.

(** [for (i = 0; i < m_nMaxLines; ++i) if (IsLineConnected(i)) Disconnect(i);]
    with [remaining] the iterations left. *)
Fixpoint StopServer_loop (remaining i : nat) : Srv unit :=
  match remaining with
  | O => ret tt
  | S r =>
      (let* s := this in when (IsLineConnected i s) (Disconnect i)) >>
      StopServer_loop r (S i)
  end.

(** [StopServer]: [idServerThread] is the member [m_idServerThread] (the
    server is running when it is not 0) and the result is its value
    afterwards.  Posting [WM_QUIT] and joining the thread are left to the
    OS. *)
Definition StopServer (idServerThread : Z) : Srv Z :=
  if (idServerThread =? 0)%Z then ret idServerThread
  else
    let* s := this in
    StopServer_loop (m_nMaxLines s) 0 >>
    ret 0%Z.

(** A [WM_SOCKET] message as the window procedure decodes it, together
    with what the OS will answer to the calls made for it. *)
Inductive SocketEvent : Type :=
| FD_ACCEPT (sktAccepted : Z) (nResult : Z) (peer : option (Z * Z))
| FD_READ (cbBuffer : Z) (szBuffer : list Z)
| FD_CLOSE
| FD_other.

(** The [WM_SOCKET] case of [ServerWindowProcedure]; the result is its
    return value ([TRUE]/[FALSE]). *)
Definition ServerWindowProcedure (wEvent : SocketEvent) (wError : Z) (sktClient : Z) : Srv bool :=
  if negb (wError =? 0)%Z then ret false
  else
    match wEvent with
    | FD_ACCEPT sktAccepted nResult peer => SocketAccept sktAccepted nResult peer
    | FD_READ cbBuffer szBuffer => SocketRead sktClient cbBuffer szBuffer
    | FD_CLOSE => let* nLine := SocketToLine sktClient in Disconnect nLine
    | FD_other => ret tt
    end >> ret true.

End ServerEvents.

(** ** Vocabulary of the further statements *)

(** Engine events of line [l]: a byte for the host under the line's own
    number, or a three-byte IAC WILL/WONT/DO/DONT command on the line's own
    socket. *)
Definition engine_event (l : CTerminalLine) (e : Event) : Prop :=
  match e with
  | EvReceive n _ => n = m_nLine l
  | EvSend skt [i; c; _] =>
      skt = m_ClientSocket l /\ i = K.IAC /\ (K.IAC_WILL <= c <= K.IAC_DONT)%Z
  | _ => False
  end.

(** The identity of a line: everything but the engine state. *)
Definition same_identity (l l' : CTerminalLine) : Prop :=
  m_nLine l' = m_nLine l /\ m_ClientSocket l' = m_ClientSocket l /\
  m_lClientIP l' = m_lClientIP l /\ m_nClientPort l' = m_nClientPort l.

(** How many bytes of an unfinished command the engine has taken in. *)
Definition pending (sta : TELNET_STATE) : nat :=
  match sta with
  | STA_NORMAL | STA_CR_LAST => 0
  | STA_IAC_RCVD => 1
  | _ => 2
  end.

(** How far a SUPPRESS-GO-AHEAD option has got. *)
Definition sga_rank (o : OPTION_STATE) : nat :=
  match o with OPT_DISABLED => 0 | OPT_WAITING => 1 | OPT_ENABLED => 2 end.

(** The table invariant: a socket is mapped to a line exactly when that
    line sits in its slot with that socket; and a line knows its slot. *)
Definition consistent (s : CTerminalServer) : Prop :=
  forall skt n,
    m_mapSocket s !! skt = Some n <->
    exists l, m_apLines s !! n = Some (Some l) /\ m_ClientSocket l = skt.

Definition numbered (s : CTerminalServer) : Prop :=
  forall n l, m_apLines s !! n = Some (Some l) -> m_nLine l = n.

Definition wf_server (s : CTerminalServer) : Prop :=
  Server.sized s /\ consistent s /\ numbered s.

(** The disconnect callbacks and the sockets closed when the occupied
    slots of a table are taken down from slot [i] on, in line order. *)
Fixpoint lines_from (i : nat) (v : list (option CTerminalLine)) : list (nat * Z) :=
  match v with
  | [] => []
  | Some l :: rest => (i, m_ClientSocket l) :: lines_from (S i) rest
  | None :: rest => lines_from (S i) rest
  end.

(** * Properties of the TELNET engine *)

Module LineFacts.
Import K Line.
Local Open Scope Z_scope.

Ltac unfold_engine :=
  unfold exec, ReceiveAll, Receive, NextState, HandleWill, HandleWont,
    HandleDo, HandleDont, SetLocalEcho, SuppressGoAhead, SendWill, SendWont,
    SendDo, SendDont, SendCommand, SocketWrite, ReceiveCallback, when,
    set_staCurrent, set_optLocalEcho, set_optLocalSGA, set_optRemoteSGA,
    bind, ret, this, emit,
    with_staCurrent, with_optLocalEcho, with_optLocalSGA, with_optRemoteSGA.

(** One data byte in the normal state: the line is left as it was and the
    byte goes to the host unless it is a NUL. *)
Lemma Receive_data (ch : Z) (l : CTerminalLine) :
  ch <> IAC -> ch <> CHCRT -> m_staCurrent l = STA_NORMAL ->
  Receive ch l =
    (tt, l, if ch =? CHNUL then [] else [EvReceive (m_nLine l) ch]).
Proof.
  intros Hiac Hcr Hsta. destruct l as [n skt ip port sta e ls rs].
  simpl in Hsta. subst sta. unfold_engine. simpl.
  destruct (Z.eqb_spec ch IAC) as [|_]; [contradiction|].
  destruct (Z.eqb_spec ch CHCRT) as [|_]; [contradiction|].
  simpl. destruct (ch =? CHNUL); reflexivity.
Qed.

Lemma ReceiveAll_cons (ch : Z) (bs : list Z) (l : CTerminalLine) :
  ReceiveAll (ch :: bs) l =
    (let '(_, l1, t1) := Receive ch l in
     let '(b, l2, t2) := ReceiveAll bs l1 in (b, l2, t1 ++ t2)).
Proof. reflexivity. Qed.

(** A run of data bytes. *)
Lemma ReceiveAll_data (bs : list Z) (l : CTerminalLine) :
  Forall (fun ch => ch <> IAC /\ ch <> CHCRT) bs ->
  m_staCurrent l = STA_NORMAL ->
  ReceiveAll bs l =
    (tt, l, map (EvReceive (m_nLine l)) (List.filter (fun ch => negb (ch =? CHNUL)) bs)).
Proof.
  intros Hbs Hsta. induction Hbs as [|ch bs [Hiac Hcr] _ IH]; [reflexivity|].
  rewrite ReceiveAll_cons, (Receive_data ch l Hiac Hcr Hsta), IH.
  simpl. destruct (ch =? CHNUL); reflexivity.
Qed.

Lemma delivered_map_EvReceive (n : nat) (bs : list Z) :
  delivered (map (EvReceive n) bs) = bs.
Proof. induction bs as [|b bs IH]; simpl; [|rewrite IH]; reflexivity. Qed.

Lemma outbound_map_EvReceive (n : nat) (bs : list Z) :
  outbound (map (EvReceive n) bs) = [].
Proof. induction bs as [|b bs IH]; simpl; [reflexivity|exact IH]. Qed.

Lemma filter_no_nul (bs : list Z) :
  Forall (fun ch => ch <> CHNUL) bs ->
  List.filter (fun ch => negb (ch =? CHNUL)) bs = bs.
Proof.
  induction 1 as [|ch bs Hch _ IH]; simpl; [reflexivity|].
  destruct (Z.eqb_spec ch CHNUL); [contradiction|]. simpl. now rewrite IH.
Qed.

(** C1, as stated, fails: NUL is neither IAC nor CR, it is fed in the
    normal state, and it is not delivered. *)
Lemma C1_nul_is_swallowed :
  ~ (forall (b : Z) (l : CTerminalLine),
       is_uint8 b -> b <> IAC -> b <> CHCRT -> m_staCurrent l = STA_NORMAL ->
       delivered (snd (exec (Receive b) l)) = [b]).
Proof.
  intros H. specialize (H 0 line0).
  assert (Hd : delivered (snd (exec (Receive 0) line0)) = []) by reflexivity.
  rewrite Hd in H. unfold is_uint8, IAC, CHCRT in H.
  discriminate H; [lia | lia | lia | reflexivity].
Qed.

(** C1 (amended): every run of bytes other than IAC (255) and CR (13),
    fed in the normal state, is delivered to the receive callback
    unchanged and in input order, except that NUL (0) bytes are
    swallowed; nothing is sent to the client and the engine stays as it
    was, in the normal state.  In particular a run without NUL is
    delivered as it is. *)
Theorem C1_data_bytes_delivered_in_order (bs : list Z) (l : CTerminalLine) :
  Forall (fun ch => ch <> IAC /\ ch <> CHCRT) bs ->
  m_staCurrent l = STA_NORMAL ->
  let '(l', tr) := exec (ReceiveAll bs) l in
  l' = l /\ m_staCurrent l' = STA_NORMAL /\
  tr = map (EvReceive (m_nLine l)) (List.filter (fun ch => negb (ch =? CHNUL)) bs) /\
  delivered tr = List.filter (fun ch => negb (ch =? CHNUL)) bs /\
  outbound tr = [] /\
  (Forall (fun ch => ch <> CHNUL) bs -> delivered tr = bs).
Proof.
  intros Hbs Hsta. unfold exec. rewrite (ReceiveAll_data bs l Hbs Hsta).
  rewrite delivered_map_EvReceive, outbound_map_EvReceive.
  repeat split; try assumption. intros Hnul. now apply filter_no_nul.
Qed.

Lemma C1_data_bytes_witness :
  Forall (fun ch => ch <> IAC /\ ch <> CHCRT) [65; 0; 10; 200] /\
  m_staCurrent line0 = STA_NORMAL /\
  let '(l', tr) := exec (ReceiveAll [65; 0; 10; 200]) line0 in
  l' = line0 /\ m_staCurrent l' = STA_NORMAL /\
  tr = map (EvReceive (m_nLine line0))
           (List.filter (fun ch => negb (ch =? CHNUL)) [65; 0; 10; 200]) /\
  delivered tr = List.filter (fun ch => negb (ch =? CHNUL)) [65; 0; 10; 200] /\
  outbound tr = [] /\
  (Forall (fun ch => ch <> CHNUL) [65; 0; 10; 200] -> delivered tr = [65; 0; 10; 200]).
Proof.
  assert (Hbs : Forall (fun ch => ch <> IAC /\ ch <> CHCRT) [65; 0; 10; 200]).
  { repeat constructor; unfold IAC, CHCRT; lia. }
  split; [exact Hbs | split; [reflexivity |]].
  exact (C1_data_bytes_delivered_in_order [65; 0; 10; 200] line0 Hbs eq_refl).
Defined.

(** The two steps of a CR sequence. *)
Lemma Receive_CR (l : CTerminalLine) :
  m_staCurrent l = STA_NORMAL ->
  Receive CHCRT l = (tt, with_staCurrent STA_CR_LAST l, [EvReceive (m_nLine l) CHCRT]).
Proof.
  intros Hsta. destruct l as [n skt ip port sta e ls rs].
  simpl in Hsta. subst sta. reflexivity.
Qed.

Lemma Receive_after_CR (ch : Z) (l : CTerminalLine) :
  m_staCurrent l = STA_CR_LAST ->
  Receive ch l =
    (tt, with_staCurrent STA_NORMAL l,
     if (ch =? CHNUL) || (ch =? CHLFD) then [] else [EvReceive (m_nLine l) ch]).
Proof.
  intros Hsta. destruct l as [n skt ip port sta e ls rs].
  simpl in Hsta. subst sta. unfold_engine. simpl.
  destruct (ch =? CHNUL), (ch =? CHLFD); reflexivity.
Qed.

(** C5: whatever byte [X] follows a CR, the CR has been delivered once on
    entry; [X] is dropped when it is LF (10) or NUL (0) and delivered
    after the CR otherwise; nothing is sent; and the engine is back in
    the normal state (the options are untouched). *)
Theorem C5_byte_after_CR (X : Z) (l : CTerminalLine) :
  m_staCurrent l = STA_NORMAL ->
  let '(l1, tr1) := exec (Receive CHCRT) l in
  let '(l2, tr2) := exec (Receive X) l1 in
  m_staCurrent l1 = STA_CR_LAST /\ delivered tr1 = [CHCRT] /\
  l2 = l /\ m_staCurrent l2 = STA_NORMAL /\
  delivered tr2 = (if (X =? CHLFD) || (X =? CHNUL) then [] else [X]) /\
  outbound (tr1 ++ tr2) = [] /\
  exec (ReceiveAll [CHCRT; X]) l = (l2, tr1 ++ tr2).
Proof.
  intros Hsta. destruct l as [n skt ip port sta e ls rs].
  simpl in Hsta. subst sta. unfold_engine. simpl.
  destruct (X =? CHNUL), (X =? CHLFD); simpl; repeat split; reflexivity.
Qed.

Lemma C5_byte_after_CR_witness :
  m_staCurrent line0 = STA_NORMAL /\
  let '(l1, tr1) := exec (Receive CHCRT) line0 in
  let '(l2, tr2) := exec (Receive 65) l1 in
  m_staCurrent l1 = STA_CR_LAST /\ delivered tr1 = [CHCRT] /\
  l2 = line0 /\ m_staCurrent l2 = STA_NORMAL /\
  delivered tr2 = (if (65 =? CHLFD) || (65 =? CHNUL) then [] else [65]) /\
  outbound (tr1 ++ tr2) = [] /\
  exec (ReceiveAll [CHCRT; 65]) line0 = (l2, tr1 ++ tr2).
Proof.
  split; [reflexivity |]. exact (C5_byte_after_CR 65 line0 eq_refl).
Defined.

(** Scenario 2 of the spec: "A\r\n" gives 'A' then CR to the host. *)
Example scenario_A_CR_LF :
  exec (ReceiveAll [65; 13; 10]) line0 = (line0, [EvReceive 0 65; EvReceive 0 13]).
Proof. reflexivity. Qed.

(** The byte after a CR ends the CR sequence even when it is a CR itself:
    in CR CR LF the second CR is the byte after the first, and the LF comes
    in the normal state. *)
Example CR_CR_LF :
  exec (ReceiveAll [13; 13; 10]) line0 =
    (line0, [EvReceive 0 13; EvReceive 0 13; EvReceive 0 10]).
Proof. reflexivity. Qed.

(** IAC and CR themselves are data when they follow a CR. *)
Example IAC_after_CR_is_data :
  exec (ReceiveAll [13; 255]) line0 = (line0, [EvReceive 0 13; EvReceive 0 255]).
Proof. reflexivity. Qed.

(** C6: for an option other than ECHO (1) and SGA (3), the input
    IAC WILL opt is answered by exactly IAC DONT opt and the input
    IAC DO opt by exactly IAC WONT opt; no byte reaches the receive
    callback and the engine is back in the normal state with its
    options untouched. *)
Theorem C6_unknown_option_declined (opt : Z) (l : CTerminalLine) :
  is_uint8 opt -> opt <> OPT_ECHO -> opt <> OPT_SGA ->
  m_staCurrent l = STA_NORMAL ->
  exec (ReceiveAll [IAC; IAC_WILL; opt]) l =
    (l, [EvSend (m_ClientSocket l) [IAC; IAC_DONT; opt]]) /\
  exec (ReceiveAll [IAC; IAC_DO; opt]) l =
    (l, [EvSend (m_ClientSocket l) [IAC; IAC_WONT; opt]]) /\
  outbound (snd (exec (ReceiveAll [IAC; IAC_WILL; opt]) l)) = [[IAC; IAC_DONT; opt]] /\
  outbound (snd (exec (ReceiveAll [IAC; IAC_DO; opt]) l)) = [[IAC; IAC_WONT; opt]] /\
  delivered (snd (exec (ReceiveAll [IAC; IAC_WILL; opt]) l)) = [] /\
  delivered (snd (exec (ReceiveAll [IAC; IAC_DO; opt]) l)) = [] /\
  m_staCurrent (fst (exec (ReceiveAll [IAC; IAC_WILL; opt]) l)) = STA_NORMAL /\
  m_staCurrent (fst (exec (ReceiveAll [IAC; IAC_DO; opt]) l)) = STA_NORMAL.
Proof.
  intros _ Hecho Hsga Hsta. destruct l as [n skt ip port sta e ls rs].
  simpl in Hsta. subst sta. unfold_engine. simpl.
  destruct (Z.eqb_spec opt OPT_SGA) as [|_]; [contradiction|].
  destruct (Z.eqb_spec opt OPT_ECHO) as [|_]; [contradiction|].
  simpl. repeat split; reflexivity.
Qed.

Lemma C6_unknown_option_declined_witness :
  is_uint8 24 /\ 24 <> OPT_ECHO /\ 24 <> OPT_SGA /\
  m_staCurrent line0 = STA_NORMAL /\
  exec (ReceiveAll [IAC; IAC_WILL; 24]) line0 =
    (line0, [EvSend (m_ClientSocket line0) [IAC; IAC_DONT; 24]]) /\
  exec (ReceiveAll [IAC; IAC_DO; 24]) line0 =
    (line0, [EvSend (m_ClientSocket line0) [IAC; IAC_WONT; 24]]).
Proof.
  assert (H1 : is_uint8 24) by (unfold is_uint8; lia).
  assert (H2 : 24 <> OPT_ECHO) by (unfold OPT_ECHO; lia).
  assert (H3 : 24 <> OPT_SGA) by (unfold OPT_SGA; lia).
  split; [exact H1 | split; [exact H2 | split; [exact H3 | split; [reflexivity |]]]].
  destruct (C6_unknown_option_declined 24 line0 H1 H2 H3 eq_refl) as (Ha & Hb & _).
  split; [exact Ha | exact Hb].
Defined.

(** C2, as stated, fails: the input IAC WILL ECHO is answered with
    IAC DONT ECHO and leaves the echo option where it was. *)
Lemma C2_will_echo_is_declined :
  ~ (forall l : CTerminalLine,
       m_staCurrent l = STA_NORMAL -> m_optLocalEcho l = OPT_DISABLED ->
       let '(l', tr) := exec (ReceiveAll [IAC; IAC_WILL; OPT_ECHO]) l in
       outbound tr = [[IAC; IAC_WILL; OPT_ECHO]] /\ m_optLocalEcho l' = OPT_WAITING).
Proof.
  intros H. specialize (H (with_optLocalEcho OPT_DISABLED line0) eq_refl eq_refl).
  simpl in H. destruct H as [H _]. discriminate H.
Qed.

(** What the code does at the very inputs of C2. *)
Example C2_inputs_on_the_code :
  let l := with_optLocalEcho OPT_DISABLED line0 in
  exec (ReceiveAll [255; 251; 1]) l = (l, [EvSend 7 [255; 254; 1]]) /\
  exec (ReceiveAll [255; 253; 1]) l = (l, [EvSend 7 [255; 251; 1]]).
Proof. split; reflexivity. Qed.

(** C2 (amended): the input IAC WILL ECHO (255,251,1) is declined with
    exactly one outbound IAC DONT ECHO (255,254,1) and leaves localEcho
    unchanged.  The outbound IAC WILL ECHO (255,251,1) and the
    negotiating state come from the host's SetLocalEcho(false), called
    while localEcho is Enabled: it sends exactly that sequence and puts
    localEcho in OPT_WAITING; a subsequently fed input IAC DO ECHO
    (255,253,1) then sets localEcho to Disabled (the client has stopped
    echoing locally) and produces no outbound bytes. *)
Theorem C2_echo_negotiation (l : CTerminalLine) :
  m_staCurrent l = STA_NORMAL ->
  exec (ReceiveAll [IAC; IAC_WILL; OPT_ECHO]) l =
    (l, [EvSend (m_ClientSocket l) [IAC; IAC_DONT; OPT_ECHO]]) /\
  (m_optLocalEcho l = OPT_ENABLED ->
   let '(l1, tr1) := exec (SetLocalEcho false) l in
   let '(l2, tr2) := exec (ReceiveAll [IAC; IAC_DO; OPT_ECHO]) l1 in
   tr1 = [EvSend (m_ClientSocket l) [IAC; IAC_WILL; OPT_ECHO]] /\
   outbound tr1 = [[255; 251; 1]] /\
   l1 = with_optLocalEcho OPT_WAITING l /\
   l2 = with_optLocalEcho OPT_DISABLED l /\
   tr2 = []).
Proof.
  intros Hsta. destruct l as [n skt ip port sta e ls rs].
  simpl in Hsta. subst sta. split; [reflexivity |].
  simpl. intros ->. repeat split; reflexivity.
Qed.

Lemma C2_echo_negotiation_witness :
  m_staCurrent line0 = STA_NORMAL /\
  m_optLocalEcho line0 = OPT_ENABLED /\
  exec (ReceiveAll [IAC; IAC_WILL; OPT_ECHO]) line0 =
    (line0, [EvSend (m_ClientSocket line0) [IAC; IAC_DONT; OPT_ECHO]]) /\
  let '(l1, tr1) := exec (SetLocalEcho false) line0 in
  let '(l2, tr2) := exec (ReceiveAll [IAC; IAC_DO; OPT_ECHO]) l1 in
  tr1 = [EvSend (m_ClientSocket line0) [IAC; IAC_WILL; OPT_ECHO]] /\
  outbound tr1 = [[255; 251; 1]] /\
  l1 = with_optLocalEcho OPT_WAITING line0 /\
  l2 = with_optLocalEcho OPT_DISABLED line0 /\
  tr2 = [].
Proof.
  split; [reflexivity | split; [reflexivity |]].
  split.
  - exact (proj1 (C2_echo_negotiation line0 eq_refl)).
  - exact (proj2 (C2_echo_negotiation line0 eq_refl) eq_refl).
Defined.

(** Scenario 1 of the spec: on a fresh line EnableLocalEcho(line, false)
    sends exactly IAC WILL ECHO. *)
Example scenario_SetLocalEcho_false :
  exec (SetLocalEcho false) line0 =
    (with_optLocalEcho OPT_WAITING line0, [EvSend 7 [255; 251; 1]]).
Proof. reflexivity. Qed.

(** C8, as stated, fails for SGA: SuppressGoAhead sends again while both
    directions are still being negotiated. *)
Lemma C8_SuppressGoAhead_resends_while_waiting :
  ~ (forall l : CTerminalLine,
       m_optLocalSGA l = OPT_WAITING -> m_optRemoteSGA l = OPT_WAITING ->
       exec SuppressGoAhead l = (l, [])).
Proof.
  intros H.
  specialize (H (with_optRemoteSGA OPT_WAITING (with_optLocalSGA OPT_WAITING line0))
                eq_refl eq_refl).
  discriminate H.
Qed.

Example SuppressGoAhead_twice :
  let '(l1, tr1) := exec SuppressGoAhead line0 in
  let '(l2, tr2) := exec SuppressGoAhead l1 in
  tr1 = [EvSend 7 [255; 251; 3]; EvSend 7 [255; 253; 3]] /\ tr2 = tr1 /\ l2 = l1.
Proof. repeat split; reflexivity. Qed.

(** C8 (amended).  SetLocalEcho is idempotent when the echo option is
    already in the wanted state or in OPT_WAITING (negotiating): it sends
    nothing and changes nothing; otherwise it sends exactly one
    IAC WONT ECHO (to enable) or IAC WILL ECHO (to disable) and puts the
    option in OPT_WAITING, which the input IAC DO ECHO then resolves to
    Disabled and the input IAC DONT ECHO to Enabled, without outbound
    bytes.  SuppressGoAhead skips a direction only when that direction is
    already Enabled: for each direction that is Disabled or still
    OPT_WAITING it sends IAC WILL SGA (local) respectively IAC DO SGA
    (remote) and sets the direction to OPT_WAITING. *)
Theorem C8_enable_option (l : CTerminalLine) (fEcho : bool) :
  m_staCurrent l = STA_NORMAL ->
  (m_optLocalEcho l = wanted fEcho \/ m_optLocalEcho l = OPT_WAITING ->
   exec (SetLocalEcho fEcho) l = (l, [])) /\
  (m_optLocalEcho l = wanted (negb fEcho) ->
   exec (SetLocalEcho fEcho) l =
     (with_optLocalEcho OPT_WAITING l,
      [EvSend (m_ClientSocket l) [IAC; if fEcho then IAC_WONT else IAC_WILL; OPT_ECHO]])) /\
  (m_optLocalEcho l = OPT_WAITING ->
   exec (ReceiveAll [IAC; IAC_DO; OPT_ECHO]) l = (with_optLocalEcho OPT_DISABLED l, []) /\
   exec (ReceiveAll [IAC; IAC_DONT; OPT_ECHO]) l = (with_optLocalEcho OPT_ENABLED l, [])) /\
  exec SuppressGoAhead l =
    (with_optRemoteSGA (sga_after (m_optRemoteSGA l))
       (with_optLocalSGA (sga_after (m_optLocalSGA l)) l),
     sga_sent (m_ClientSocket l) (m_optLocalSGA l) IAC_WILL ++
     sga_sent (m_ClientSocket l) (m_optRemoteSGA l) IAC_DO).
Proof.
  intros Hsta. destruct l as [n skt ip port sta e ls rs].
  simpl in Hsta. subst sta. simpl.
  split; [| split; [| split]].
  - intros [-> | ->]; destruct fEcho; reflexivity.
  - intros ->; destruct fEcho; reflexivity.
  - intros ->; split; reflexivity.
  - destruct ls, rs; reflexivity.
Qed.

Lemma C8_enable_option_witness :
  m_staCurrent line0 = STA_NORMAL /\
  m_optLocalEcho line0 = wanted true /\
  m_optLocalEcho line0 = wanted (negb false) /\
  exec (SetLocalEcho true) line0 = (line0, []) /\
  exec (SetLocalEcho false) line0 =
    (with_optLocalEcho OPT_WAITING line0,
     [EvSend (m_ClientSocket line0) [IAC; IAC_WILL; OPT_ECHO]]) /\
  (let lw := with_optLocalEcho OPT_WAITING line0 in
   m_optLocalEcho lw = OPT_WAITING /\
   exec (SetLocalEcho false) lw = (lw, []) /\
   exec (ReceiveAll [IAC; IAC_DO; OPT_ECHO]) lw = (with_optLocalEcho OPT_DISABLED lw, [])).
Proof.
  split; [reflexivity | split; [reflexivity | split; [reflexivity |]]].
  split; [| split; [| split; [| split]]].
  - exact (proj1 (C8_enable_option line0 true eq_refl) (or_introl eq_refl)).
  - exact (proj1 (proj2 (C8_enable_option line0 false eq_refl)) eq_refl).
  - reflexivity.
  - exact (proj1 (C8_enable_option (with_optLocalEcho OPT_WAITING line0) false eq_refl)
                 (or_intror eq_refl)).
  - exact (proj1 (proj1 (proj2 (proj2
             (C8_enable_option (with_optLocalEcho OPT_WAITING line0) false eq_refl)))
             eq_refl)).
Defined.

End LineFacts.

(** * Properties of the line table and of the socket events *)

Module ServerFacts.
Import K Server.

Ltac unfold_srv :=
  unfold SocketRead, SocketAccept, SocketAccept_failed, Disconnect,
    SocketToLine, Line, LockServer, UnlockServer, store_line, on_line,
    set_apLines, set_mapSocket, assert, when, throw, emit, this, bind, ret.

(** ** SocketToLine *)

Lemma SocketToLine_known (s : CTerminalServer) (skt : Z) (n : nat) :
  m_mapSocket s !! skt = Some n -> SocketToLine skt s = Done (n, s, []).
Proof. intros H. unfold_srv. rewrite H. reflexivity. Qed.

(** C9: looking up a socket that is not in [m_mapSocket] returns line 0
    and leaves a new entry for that socket, mapped to line 0, in the
    map: the socket now counts as connected and the number of active
    lines has grown by one. *)
Theorem C9_SocketToLine_inserts_unknown_socket (s : CTerminalServer) (skt : Z) :
  m_mapSocket s !! skt = None ->
  let s' := with_mapSocket (<[skt := 0]> (m_mapSocket s)) s in
  SocketToLine skt s = Done (0, s', []) /\
  m_mapSocket s' !! skt = Some 0 /\
  IsSocketConnected skt s = false /\
  IsSocketConnected skt s' = true /\
  ActiveLines s' = S (ActiveLines s) /\
  m_apLines s' = m_apLines s.
Proof.
  intros H. simpl. split; [| split; [| split; [| split; [| split]]]].
  - unfold_srv. rewrite H. reflexivity.
  - apply lookup_insert_eq.
  - unfold IsSocketConnected. rewrite H. apply bool_decide_eq_false.
    intros [x Hx]. discriminate Hx.
  - unfold IsSocketConnected. simpl. rewrite lookup_insert_eq.
    apply bool_decide_eq_true. eexists; reflexivity.
  - unfold ActiveLines. simpl. apply map_size_insert_None. exact H.
  - reflexivity.
Qed.

Lemma C9_SocketToLine_witness :
  m_mapSocket srv_one !! 9%Z = None /\
  let s' := with_mapSocket (<[9%Z := 0]> (m_mapSocket srv_one)) srv_one in
  SocketToLine 9 srv_one = Done (0, s', []) /\
  m_mapSocket s' !! 9%Z = Some 0 /\
  IsSocketConnected 9 srv_one = false /\
  IsSocketConnected 9 s' = true /\
  ActiveLines s' = S (ActiveLines srv_one) /\
  m_apLines s' = m_apLines srv_one.
Proof.
  split; [reflexivity |].
  exact (C9_SocketToLine_inserts_unknown_socket srv_one 9 eq_refl).
Defined.

(** A read event for a socket the server has never seen is routed to
    line 0: its bytes go through the engine of whoever sits there. *)
Example read_on_unknown_socket_feeds_line_0 :
  exists s', SocketRead 9 1 [65%Z] srv_one = Done (tt, s', [EvReceive 0 65]) /\
             m_mapSocket s' !! 9%Z = Some 0.
Proof. eexists. split; reflexivity. Qed.

(** ** The constructor *)

Lemma new_ok (pConnect : option (nat -> bool)) (pDisconnect : bool) (nMaxLines : nat) :
  0 < nMaxLines <= DEFAULT_LINES ->
  new false true pConnect pDisconnect nMaxLines =
    Done (mkServer nMaxLines (replicate nMaxLines None) ∅ pConnect pDisconnect true).
Proof.
  intros [Hlo Hhi]. unfold new.
  apply Nat.ltb_lt in Hlo. apply Nat.leb_le in Hhi. rewrite Hlo, Hhi. reflexivity.
Qed.

Lemma new_inv (fServerExists pReceive : bool) (pConnect : option (nat -> bool))
    (pDisconnect : bool) (nMaxLines : nat) (s : CTerminalServer) :
  new fServerExists pReceive pConnect pDisconnect nMaxLines = Done s ->
  fServerExists = false /\ pReceive = true /\ 0 < nMaxLines <= DEFAULT_LINES /\
  s = mkServer nMaxLines (replicate nMaxLines None) ∅ pConnect pDisconnect true.
Proof.
  unfold new. destruct fServerExists; [discriminate |].
  destruct (Nat.ltb_spec 0 nMaxLines); [| discriminate].
  destruct (Nat.leb_spec nMaxLines DEFAULT_LINES); [| discriminate].
  destruct pReceive; [| discriminate].
  simpl. intros [= <-]. repeat split; assumption.
Qed.

Lemma new_rejects (fServerExists pReceive : bool) (pConnect : option (nat -> bool))
    (pDisconnect : bool) (nMaxLines : nat) :
  nMaxLines = 0 \/ DEFAULT_LINES < nMaxLines \/ pReceive = false ->
  new fServerExists pReceive pConnect pDisconnect nMaxLines = Fail AssertFailed.
Proof.
  intros H. unfold new. destruct fServerExists; [reflexivity |].
  destruct (Nat.ltb_spec 0 nMaxLines); [| reflexivity].
  destruct (Nat.leb_spec nMaxLines DEFAULT_LINES); [| reflexivity].
  destruct pReceive; [| reflexivity]. lia.
Qed.

(** ** The shape of the table is invariant *)

Lemma same_shape_refl (s : CTerminalServer) : same_shape s s.
Proof. split; reflexivity. Qed.

Lemma same_shape_trans (s1 s2 s3 : CTerminalServer) :
  same_shape s1 s2 -> same_shape s2 s3 -> same_shape s1 s3.
Proof. intros [H1 H2] [H3 H4]. split; congruence. Qed.

Lemma preserves_ret {A} (a : A) : preserves_shape (ret a).
Proof. intros s a' s' tr [= _ <- _]. apply same_shape_refl. Qed.

Lemma preserves_this : preserves_shape this.
Proof. intros s a' s' tr [= _ <- _]. apply same_shape_refl. Qed.

Lemma preserves_emit (e : Event) : preserves_shape (emit e).
Proof. intros s a' s' tr [= _ <- _]. apply same_shape_refl. Qed.

Lemma preserves_throw {A} (f : Failure) : preserves_shape (@throw A f).
Proof. intros s a' s' tr H. discriminate H. Qed.

Lemma preserves_bind {A B} (m : Srv A) (k : A -> Srv B) :
  preserves_shape m -> (forall a, preserves_shape (k a)) ->
  preserves_shape (bind m k).
Proof.
  intros Hm Hk s b s' tr. unfold bind.
  destruct (m s) as [[[a s1] t1] | f] eqn:Em; [| discriminate].
  destruct (k a s1) as [[[b' s2] t2] | f] eqn:Ek; [| discriminate].
  intros [= _ <- _].
  eapply same_shape_trans; [eapply Hm, Em | eapply Hk, Ek].
Qed.

Lemma preserves_when (b : bool) (m : Srv unit) :
  preserves_shape m -> preserves_shape (when b m).
Proof. destruct b; [trivial | intros _; apply preserves_ret]. Qed.

Lemma preserves_set_mapSocket (m : gmap Z nat) : preserves_shape (set_mapSocket m).
Proof. intros s a s' tr [= _ <- _]. split; reflexivity. Qed.

Lemma preserves_store_line (n : nat) (p : option CTerminalLine) :
  preserves_shape (store_line n p).
Proof.
  intros s a s' tr [= _ <- _]. split; [reflexivity |]. simpl. apply length_insert.
Qed.

Lemma preserves_Line (n : nat) : preserves_shape (Line n).
Proof.
  apply preserves_bind; [apply preserves_this |].
  intros s. destruct (m_apLines s !! n); [apply preserves_ret | apply preserves_throw].
Qed.

Lemma preserves_SocketToLine (skt : Z) : preserves_shape (SocketToLine skt).
Proof.
  apply preserves_bind; [apply preserves_this |].
  intros s. destruct (m_mapSocket s !! skt); [apply preserves_ret |].
  apply preserves_bind; [apply preserves_set_mapSocket | intros; apply preserves_ret].
Qed.

Create HintDb shape.
#[local] Hint Resolve preserves_ret preserves_this preserves_emit preserves_throw
  preserves_when preserves_set_mapSocket preserves_store_line preserves_Line
  preserves_SocketToLine : shape.

Ltac shape :=
  repeat first
    [ solve [auto with shape]
    | apply preserves_bind; [| intros ?]
    | match goal with
      | |- preserves_shape (match ?x with _ => _ end) => destruct x
      end ].

Lemma preserves_Disconnect (n : nat) : preserves_shape (Disconnect n).
Proof. unfold Disconnect, UnlockServer. shape. Qed.

Lemma preserves_FindFreeLine (r n : nat) : preserves_shape (FindFreeLine r n).
Proof.
  revert n. induction r as [| r IH]; intros n; simpl; [shape |].
  apply preserves_bind; [shape | intros [l |]]; [apply IH | shape].
Qed.

Lemma preserves_SocketAccept_failed (n : nat) (skt : Z) :
  preserves_shape (SocketAccept_failed n skt).
Proof. unfold SocketAccept_failed, UnlockServer. shape. Qed.

#[local] Hint Resolve preserves_Disconnect preserves_FindFreeLine
  preserves_SocketAccept_failed : shape.

Lemma preserves_SocketAccept (skt nResult : Z) (peer : option (Z * Z)) :
  preserves_shape (SocketAccept skt nResult peer).
Proof. unfold SocketAccept, LockServer, UnlockServer. shape. Qed.

Lemma preserves_on_line (n : nat) (l : CTerminalLine) (m : Line.Telnet unit) :
  preserves_shape (on_line n l m).
Proof.
  intros s a s' tr. unfold on_line. destruct (m l) as [[u l'] t].
  unfold_srv. intros [= _ <- _]. split; [reflexivity |]. simpl. apply length_insert.
Qed.

Lemma preserves_SocketRead (skt cbBuffer : Z) (szBuffer : list Z) :
  preserves_shape (SocketRead skt cbBuffer szBuffer).
Proof.
  unfold SocketRead. shape. apply preserves_on_line.
Qed.

Lemma server_step_same_shape (s s' : CTerminalServer) :
  server_step s s' -> same_shape s s'.
Proof.
  intros [skt r peer s1 s2 tr H | skt cb buf s1 s2 tr H | n s1 s2 tr H
         | skt n s1 s2 tr H | n l m s1 s2 tr _ H].
  - eapply preserves_SocketAccept, H.
  - eapply preserves_SocketRead, H.
  - eapply preserves_Disconnect, H.
  - eapply preserves_SocketToLine, H.
  - eapply preserves_on_line, H.
Qed.

Lemma reachable_same_shape (s s' : CTerminalServer) :
  rtc server_step s s' -> same_shape s s'.
Proof.
  induction 1 as [s | s1 s2 s3 Hstep _ IH]; [apply same_shape_refl |].
  eapply same_shape_trans; [apply server_step_same_shape, Hstep | exact IH].
Qed.

(** C10: the constructor returns only when no server exists yet,
    [0 < nMaxLines <= 64] and the receive callback is not NULL, and the
    other two assertions fail otherwise; for every in-range [nMaxLines]
    it returns a server whose [nMaxLines] slots are all empty and whose
    socket map is empty; and whatever the server then goes through, its
    maximum number of lines stays the [nMaxLines <= 64] it was built
    with. *)
Theorem C10_constructor_bounds
    (fServerExists pReceive : bool) (pConnect : option (nat -> bool))
    (pDisconnect : bool) (nMaxLines : nat) :
  (forall s, new fServerExists pReceive pConnect pDisconnect nMaxLines = Done s ->
     0 < nMaxLines <= DEFAULT_LINES /\ pReceive = true /\
     MaximumLines s = nMaxLines /\ m_nMaxLines s = nMaxLines /\
     (forall i, i < nMaxLines -> m_apLines s !! i = Some None) /\
     m_mapSocket s = ∅ /\ ActiveLines s = 0 /\
     (forall s', rtc server_step s s' ->
        MaximumLines s' = nMaxLines /\ m_nMaxLines s' = nMaxLines /\
        MaximumLines s' <= 64)) /\
  (nMaxLines = 0 \/ DEFAULT_LINES < nMaxLines \/ pReceive = false ->
   new fServerExists pReceive pConnect pDisconnect nMaxLines = Fail AssertFailed) /\
  (0 < nMaxLines <= DEFAULT_LINES ->
   exists s, new false true pConnect pDisconnect nMaxLines = Done s /\
             m_apLines s = replicate nMaxLines None).
Proof.
  split; [| split].
  - intros s Hs. apply new_inv in Hs as (_ & Hrecv & Hrange & ->).
    unfold MaximumLines, ActiveLines. simpl. rewrite length_replicate.
    repeat split; try assumption; try lia; try reflexivity.
    + intros i Hi. apply lookup_replicate_2. exact Hi.
    + match goal with H : rtc _ _ _ |- _ =>
        apply reachable_same_shape in H as [_ Hlen] end.
      simpl in Hlen. rewrite length_replicate in Hlen. exact Hlen.
    + match goal with H : rtc _ _ _ |- _ =>
        apply reachable_same_shape in H as [Hmax _] end.
      exact Hmax.
    + match goal with H : rtc _ _ _ |- _ =>
        apply reachable_same_shape in H as [_ Hlen] end.
      simpl in Hlen. rewrite length_replicate in Hlen.
      unfold DEFAULT_LINES in Hrange. lia.
  - apply new_rejects.
  - intros Hrange. eexists. split; [apply new_ok; exact Hrange | reflexivity].
Qed.

Lemma C10_constructor_bounds_witness :
  new false true None true 2 =
    Done (mkServer 2 [None; None] ∅ None true true) /\
  0 < 2 <= DEFAULT_LINES /\
  MaximumLines (mkServer 2 [None; None] ∅ None true true) = 2 /\
  new false true None true 65 = Fail AssertFailed /\
  new false false None true 2 = Fail AssertFailed.
Proof.
  split; [reflexivity |].
  pose proof (C10_constructor_bounds false true None true 2) as (Hok & _ & _).
  destruct (Hok _ eq_refl) as (Hrange & _ & Hmax & _).
  split; [exact Hrange | split; [exact Hmax |]].
  split.
  - apply (C10_constructor_bounds false true None true 65).
    right; left. unfold DEFAULT_LINES. lia.
  - apply (C10_constructor_bounds false false None true 2).
    right; right. reflexivity.
Defined.

(** ** Disconnect *)

(** The server after line [n], on socket [skt], has been taken out of
    both tables. *)
Lemma Disconnect_connected (s : CTerminalServer) (n : nat) (line : CTerminalLine) :
  m_apLines s !! n = Some (Some line) ->
  Disconnect n s =
    Done (tt,
          with_mapSocket (delete (m_ClientSocket line) (m_mapSocket s))
            (with_apLines (<[n := None]> (m_apLines s)) s),
          (if m_pDisconnectCallback s then [EvDisconnect n (m_apLines s)] else [])
            ++ [EvCloseSocket (m_ClientSocket line); EvUnlock]).
Proof.
  intros H. unfold_srv. rewrite H. simpl.
  destruct (m_pDisconnectCallback s); reflexivity.
Qed.

Lemma Disconnect_empty_slot (s : CTerminalServer) (n : nat) :
  m_apLines s !! n = Some None -> Disconnect n s = Fail AssertFailed.
Proof. intros H. unfold_srv. rewrite H. reflexivity. Qed.

Lemma Disconnect_no_slot (s : CTerminalServer) (n : nat) :
  m_apLines s !! n = None -> Disconnect n s = Fail OutOfRange.
Proof. intros H. unfold_srv. rewrite H. reflexivity. Qed.




(** ** SocketRead *)

Lemma bind_left_id {A B} (m : Srv A) (k : A -> Srv B) (s : CTerminalServer) (a : A) :
  m s = Done (a, s, []) -> bind m k s = k a s.
Proof.
  intros H. unfold bind. rewrite H.
  destruct (k a s) as [[[b s2] t2] | f]; reflexivity.
Qed.

Lemma Line_slot (s : CTerminalServer) (n : nat) (p : option CTerminalLine) :
  m_apLines s !! n = Some p -> Line n s = Done (p, s, []).
Proof. intros H. unfold_srv. rewrite H. reflexivity. Qed.

Lemma SocketRead_connected (s : CTerminalServer) (skt : Z) (n : nat)
    (line : CTerminalLine) (cbBuffer : Z) (szBuffer : list Z) :
  m_mapSocket s !! skt = Some n ->
  m_apLines s !! n = Some (Some line) ->
  SocketRead skt cbBuffer szBuffer s =
    if (cbBuffer =? SOCKET_ERROR)%Z then Done (tt, s, [])
    else if (cbBuffer =? 0)%Z then Disconnect n s
    else on_line n line (Line.ReceiveAll (take (Z.to_nat cbBuffer) szBuffer)) s.
Proof.
  intros Hskt Hline. unfold SocketRead.
  rewrite (bind_left_id _ _ s n (SocketToLine_known s skt n Hskt)).
  rewrite (bind_left_id _ _ s (Some line) (Line_slot s n _ Hline)).
  destruct (cbBuffer =? SOCKET_ERROR)%Z; [reflexivity |].
  destruct (cbBuffer =? 0)%Z; reflexivity.
Qed.

(** C4, as stated, fails: a [recv] error on a connected line is not
    followed by Disconnect; the call returns with nothing done. *)
Lemma C4_recv_error_does_not_disconnect :
  ~ (forall (s : CTerminalServer) (skt : Z) (n : nat) (line : CTerminalLine)
            (szBuffer : list Z),
       m_mapSocket s !! skt = Some n -> m_apLines s !! n = Some (Some line) ->
       SocketRead skt SOCKET_ERROR szBuffer s = Disconnect n s).
Proof.
  intros H. specialize (H srv_one 7%Z 0 line0 [] eq_refl eq_refl).
  assert (Hr : SocketRead 7 SOCKET_ERROR [] srv_one = Done (tt, srv_one, []))
    by reflexivity.
  rewrite Hr in H.
  rewrite (Disconnect_connected srv_one 0 line0 eq_refl) in H.
  discriminate H.
Qed.

(** C4 (amended): on a read-ready event for a connected line, a
    zero-length [recv] result makes SocketRead do exactly Disconnect(line);
    a [recv] error is only logged: the call returns with the line still
    connected, the tables unchanged and nothing fed, called or closed;
    and when [recv] returns [n > 0] bytes, the first [n] bytes of the
    buffer are fed one by one, in order, to the line's engine, whose new
    state is left in the line's slot. *)
Theorem C4_SocketRead_outcomes
    (s : CTerminalServer) (skt : Z) (n : nat) (line : CTerminalLine)
    (cbBuffer : Z) (szBuffer : list Z) :
  m_mapSocket s !! skt = Some n ->
  m_apLines s !! n = Some (Some line) ->
  (cbBuffer = 0%Z -> SocketRead skt cbBuffer szBuffer s = Disconnect n s) /\
  (cbBuffer = SOCKET_ERROR -> SocketRead skt cbBuffer szBuffer s = Done (tt, s, [])) /\
  ((0 < cbBuffer <= Z.of_nat (length szBuffer))%Z ->
   let bytes := take (Z.to_nat cbBuffer) szBuffer in
   let '(line', tr) := Line.exec (Line.ReceiveAll bytes) line in
   Z.of_nat (length bytes) = cbBuffer /\
   Line.ReceiveAll bytes =
     foldr (fun ch rest => Line.bind (Line.Receive ch) (fun _ => rest)) (Line.ret tt) bytes /\
   SocketRead skt cbBuffer szBuffer s =
     Done (tt, with_apLines (<[n := Some line']> (m_apLines s)) s, tr)).
Proof.
  intros Hskt Hline.
  rewrite (SocketRead_connected s skt n line cbBuffer szBuffer Hskt Hline).
  split; [| split].
  - intros ->. reflexivity.
  - intros ->. reflexivity.
  - intros Hcb.
    destruct (Z.eqb_spec cbBuffer SOCKET_ERROR) as [E | _];
      [unfold SOCKET_ERROR in E; lia |].
    destruct (Z.eqb_spec cbBuffer 0) as [E | _]; [lia |].
    unfold on_line, Line.exec. simpl.
    destruct (Line.ReceiveAll (take (Z.to_nat cbBuffer) szBuffer) line)
      as [[u line'] tr] eqn:E.
    split; [rewrite length_take; lia |].
    split; [| reflexivity].
    clear E. induction (take (Z.to_nat cbBuffer) szBuffer) as [| ch bs IH];
      [reflexivity | simpl; rewrite IH; reflexivity].
Qed.

Lemma C4_SocketRead_outcomes_witness :
  m_mapSocket srv_one !! 7%Z = Some 0 /\
  m_apLines srv_one !! 0 = Some (Some line0) /\
  SocketRead 7 0 [65%Z; 13%Z] srv_one = Disconnect 0 srv_one /\
  SocketRead 7 SOCKET_ERROR [65%Z; 13%Z] srv_one = Done (tt, srv_one, []) /\
  (0 < 2 <= Z.of_nat (length [65%Z; 13%Z]))%Z /\
  SocketRead 7 2 [65%Z; 13%Z] srv_one =
    Done (tt,
          with_apLines (<[0 := Some (with_staCurrent STA_CR_LAST line0)]> (m_apLines srv_one))
                       srv_one,
          [EvReceive 0 65; EvReceive 0 13]).
Proof.
  split; [reflexivity | split; [reflexivity |]].
  split; [| split; [| split]].
  - exact (proj1 (C4_SocketRead_outcomes srv_one 7 0 line0 0 [65%Z; 13%Z] eq_refl eq_refl)
                 eq_refl).
  - exact (proj1 (proj2 (C4_SocketRead_outcomes srv_one 7 0 line0 SOCKET_ERROR
                           [65%Z; 13%Z] eq_refl eq_refl)) eq_refl).
  - simpl. lia.
  - assert (Hcb : (0 < 2 <= Z.of_nat (length [65%Z; 13%Z]))%Z) by (simpl; lia).
    exact (proj2 (proj2 (proj2 (proj2 (C4_SocketRead_outcomes srv_one 7 0 line0 2
                           [65%Z; 13%Z] eq_refl eq_refl)) Hcb))).
Defined.

(** ** SocketAccept *)

Lemma is_occupied_Some (v : list (option CTerminalLine)) (i : nat) :
  is_occupied v i = true -> exists l, v !! i = Some (Some l).
Proof.
  unfold is_occupied. destruct (v !! i) as [[l |] |]; try discriminate.
  intros _. exists l. reflexivity.
Qed.

Lemma lowest_free_unique (v : list (option CTerminalLine)) (n k : nat) :
  lowest_free v n -> lowest_free v k -> n = k.
Proof.
  intros [Hn Hbelow_n] [Hk Hbelow_k].
  destruct (Nat.lt_trichotomy n k) as [Hlt | [Heq | Hgt]]; [| exact Heq |].
  - specialize (Hbelow_k n Hlt). unfold is_occupied in Hbelow_k.
    rewrite Hn in Hbelow_k. discriminate.
  - specialize (Hbelow_n k Hgt). unfold is_occupied in Hbelow_n.
    rewrite Hk in Hbelow_n. discriminate.
Qed.

Lemma full_no_free (v : list (option CTerminalLine)) (n : nat) :
  full v -> v !! n = Some None -> False.
Proof.
  intros Hfull Hn. assert (Hlt : n < length v) by (eapply lookup_lt_Some, Hn).
  specialize (Hfull n Hlt). unfold is_occupied in Hfull.
  rewrite Hn in Hfull. discriminate.
Qed.

(** The search loop: started at [nLine] with every lower slot occupied,
    it stops at the lowest empty slot, or past the table when there is
    none; it changes nothing. *)
Lemma FindFreeLine_spec (s : CTerminalServer) (remaining nLine : nat) :
  nLine + remaining = length (m_apLines s) ->
  (forall i, i < nLine -> is_occupied (m_apLines s) i = true) ->
  exists k, FindFreeLine remaining nLine s = Done (k, s, []) /\
    ((lowest_free (m_apLines s) k /\ k < nLine + remaining) \/
     (k = nLine + remaining /\ full (m_apLines s))).
Proof.
  revert nLine. induction remaining as [| r IH]; intros nLine Hlen Hbelow.
  - exists nLine. split; [reflexivity |]. right. split; [lia |].
    intros i Hi. apply Hbelow. lia.
  - simpl. destruct (lookup_lt_is_Some_2 (m_apLines s) nLine ltac:(lia)) as [p Hp].
    rewrite (bind_left_id _ _ s p (Line_slot s nLine p Hp)).
    destruct p as [l |].
    + replace (nLine + S r) with (S nLine + r) by lia.
      apply (IH (S nLine)); [lia |].
      intros i Hi. destruct (Nat.eq_dec i nLine) as [-> | Hne].
      * unfold is_occupied. rewrite Hp. reflexivity.
      * apply Hbelow. lia.
    + exists nLine. split; [reflexivity |]. left.
      split; [split; assumption | lia].
Qed.

Lemma FindFreeLine_lowest (s : CTerminalServer) (n : nat) :
  Server.sized s -> lowest_free (m_apLines s) n ->
  FindFreeLine (m_nMaxLines s) 0 s = Done (n, s, []) /\ n < m_nMaxLines s.
Proof.
  intros Hsized Hn.
  destruct (FindFreeLine_spec s (m_nMaxLines s) 0) as (k & Hk & Hcase).
  { simpl. symmetry. exact Hsized. }
  { intros i Hi. lia. }
  destruct Hcase as [[Hfree Hlt] | [_ Hfull]].
  - rewrite (lowest_free_unique _ n k Hn Hfree). split; [exact Hk | exact Hlt].
  - exfalso. eapply full_no_free; [exact Hfull | apply Hn].
Qed.

Lemma FindFreeLine_full (s : CTerminalServer) :
  Server.sized s -> full (m_apLines s) ->
  FindFreeLine (m_nMaxLines s) 0 s = Done (m_nMaxLines s, s, []).
Proof.
  intros Hsized Hfull.
  destruct (FindFreeLine_spec s (m_nMaxLines s) 0) as (k & Hk & Hcase).
  { simpl. symmetry. exact Hsized. }
  { intros i Hi. lia. }
  destruct Hcase as [[[Hfree _] _] | [-> _]]; [| exact Hk].
  exfalso. eapply full_no_free; eassumption.
Qed.

(** An empty slot somewhere means there is a lowest one, not above it. *)
Lemma lowest_free_exists (s : CTerminalServer) (n : nat) :
  Server.sized s -> m_apLines s !! n = Some None ->
  exists k, k <= n /\ lowest_free (m_apLines s) k.
Proof.
  intros Hsized Hn.
  destruct (FindFreeLine_spec s (m_nMaxLines s) 0) as (k & _ & Hcase).
  { simpl. symmetry. exact Hsized. }
  { intros i Hi. lia. }
  destruct Hcase as [[Hfree _] | [_ Hfull]].
  - exists k. split; [| exact Hfree].
    destruct (Nat.le_gt_cases k n) as [Hle | Hgt]; [exact Hle |].
    destruct Hfree as [_ Hbelow]. specialize (Hbelow n Hgt).
    unfold is_occupied in Hbelow. rewrite Hn in Hbelow. discriminate.
  - exfalso. eapply full_no_free; eassumption.
Qed.

Lemma SocketAccept_failed_eq (s : CTerminalServer) (n : nat) (skt : Z) :
  SocketAccept_failed n skt s =
    Done (tt,
          if n <? m_nMaxLines s then with_apLines (<[n := None]> (m_apLines s)) s else s,
          [EvCloseSocket skt; EvUnlock]).
Proof. unfold_srv. destruct (n <? m_nMaxLines s); reflexivity. Qed.

(** No free line, or no luck with [WSAAsyncSelect]: the new socket is
    closed and that is all. *)
Lemma SocketAccept_full (s : CTerminalServer) (skt nResult : Z) (peer : option (Z * Z)) :
  Server.sized s -> full (m_apLines s) -> skt <> INVALID_SOCKET ->
  SocketAccept skt nResult peer s = Done (tt, s, [EvLock; EvCloseSocket skt; EvUnlock]).
Proof.
  intros Hsized Hfull Hskt. unfold SocketAccept.
  destruct (Z.eqb_spec skt INVALID_SOCKET) as [| _]; [contradiction |].
  unfold LockServer, bind at 1 2. simpl.
  destruct (negb (nResult =? 0)%Z).
  - rewrite SocketAccept_failed_eq, Nat.ltb_irrefl. reflexivity.
  - unfold bind at 1. rewrite (FindFreeLine_full s Hsized Hfull).
    rewrite Nat.leb_refl, SocketAccept_failed_eq, Nat.ltb_irrefl. reflexivity.
Qed.

(** A free line and a host that lets the connection in: the lowest empty
    slot gets the new line and the socket is entered in the map. *)
Lemma SocketAccept_lowest (s : CTerminalServer) (skt : Z) (peer : option (Z * Z)) (n : nat) :
  Server.sized s -> lowest_free (m_apLines s) n -> skt <> INVALID_SOCKET ->
  accepted s n ->
  SocketAccept skt 0 peer s =
    Done (tt,
          with_mapSocket (<[skt := n]> (m_mapSocket s))
            (with_apLines (<[n := Some (Line.new n skt peer)]> (m_apLines s)) s),
          [EvLock] ++
          match m_pConnectCallback s with
          | Some _ => [EvConnect n (<[n := Some (Line.new n skt peer)]> (m_apLines s))]
          | None => []
          end ++ [EvUnlock]).
Proof.
  intros Hsized Hfree Hskt Hacc. unfold SocketAccept.
  destruct (Z.eqb_spec skt INVALID_SOCKET) as [| _]; [contradiction |].
  destruct (FindFreeLine_lowest s n Hsized Hfree) as [Hfind Hlt].
  unfold LockServer, bind at 1 2. simpl.
  unfold bind at 1. rewrite Hfind.
  destruct (Nat.leb_spec (m_nMaxLines s) n) as [Hle | _]; [lia |].
  unfold accepted in Hacc. unfold_srv. simpl.
  destruct (m_pConnectCallback s) as [cb |]; simpl.
  - rewrite Hacc. simpl. rewrite list_insert_insert_eq. reflexivity.
  - rewrite list_insert_insert_eq. reflexivity.
Qed.

(** A free line and a host that refuses: the slot is emptied again and
    the socket closed. *)
Lemma SocketAccept_refused (s : CTerminalServer) (skt : Z) (peer : option (Z * Z))
    (n : nat) (cb : nat -> bool) :
  Server.sized s -> lowest_free (m_apLines s) n -> skt <> INVALID_SOCKET ->
  m_pConnectCallback s = Some cb -> cb n = false ->
  SocketAccept skt 0 peer s =
    Done (tt, s,
          [EvLock; EvConnect n (<[n := Some (Line.new n skt peer)]> (m_apLines s));
           EvCloseSocket skt; EvUnlock]).
Proof.
  intros Hsized Hfree Hskt Hcb Hno. unfold SocketAccept.
  destruct (Z.eqb_spec skt INVALID_SOCKET) as [| _]; [contradiction |].
  destruct (FindFreeLine_lowest s n Hsized Hfree) as [Hfind Hlt].
  unfold LockServer, bind at 1 2. simpl.
  unfold bind at 1. rewrite Hfind.
  destruct (Nat.leb_spec (m_nMaxLines s) n) as [Hle | _]; [lia |].
  unfold_srv. simpl. rewrite Hcb. simpl. rewrite Hno. simpl.
  apply Nat.ltb_lt in Hlt. rewrite Hlt. simpl.
  rewrite list_insert_insert_eq, (list_insert_id _ _ _ (proj1 Hfree)).
  destruct s; reflexivity.
Qed.

Lemma Disconnect_inv (s s' : CTerminalServer) (n : nat) (tr : list Event) :
  Disconnect n s = Done (tt, s', tr) ->
  exists line, m_apLines s !! n = Some (Some line) /\
               m_apLines s' = <[n := None]> (m_apLines s) /\
               m_nMaxLines s' = m_nMaxLines s.
Proof.
  destruct (m_apLines s !! n) as [[line |] |] eqn:E.
  - rewrite (Disconnect_connected s n line E). intros [= <- _].
    exists line. repeat split; reflexivity.
  - rewrite (Disconnect_empty_slot s n E). discriminate.
  - rewrite (Disconnect_no_slot s n E). discriminate.
Qed.

(** C7: SocketAccept gives a new connection the lowest-numbered empty
    slot, which held no line before, and changes no other slot; when
    every slot holds a line the new socket is closed and nothing else
    happens: no slot is written and the connect callback is not called;
    and Disconnect of a connected line [n] returns with slot [n] empty,
    after which the search for a free line succeeds again, with [n]
    itself when every lower slot is occupied, and the next SocketAccept
    that the host lets in gets the line the search finds. *)
Theorem C7_line_allocation (s : CTerminalServer) (skt : Z) (peer : option (Z * Z)) :
  Server.sized s -> skt <> INVALID_SOCKET ->
  (forall n, lowest_free (m_apLines s) n ->
     FindFreeLine (m_nMaxLines s) 0 s = Done (n, s, []) /\
     n < m_nMaxLines s /\
     is_occupied (m_apLines s) n = false /\
     (forall i, i < n -> is_occupied (m_apLines s) i = true) /\
     (accepted s n ->
      exists s' tr,
        SocketAccept skt 0 peer s = Done (tt, s', tr) /\
        m_apLines s' !! n = Some (Some (Line.new n skt peer)) /\
        (forall i, i <> n -> m_apLines s' !! i = m_apLines s !! i) /\
        m_mapSocket s' !! skt = Some n /\
        closed_sockets tr = [])) /\
  (full (m_apLines s) -> forall nResult,
     SocketAccept skt nResult peer s =
       Done (tt, s, [EvLock; EvCloseSocket skt; EvUnlock]) /\
     connect_calls [EvLock; EvCloseSocket skt; EvUnlock] = [] /\
     closed_sockets [EvLock; EvCloseSocket skt; EvUnlock] = [skt]) /\
  (forall n line, m_apLines s !! n = Some (Some line) ->
     exists s1 tr1,
       Disconnect n s = Done (tt, s1, tr1) /\
       m_apLines s1 !! n = Some None /\
       exists k, k <= n /\ lowest_free (m_apLines s1) k /\
         FindFreeLine (m_nMaxLines s1) 0 s1 = Done (k, s1, []) /\
         ((forall i, i < n -> is_occupied (m_apLines s) i = true) -> k = n) /\
         (accepted s1 k ->
          exists s2 tr2,
            SocketAccept skt 0 peer s1 = Done (tt, s2, tr2) /\
            m_apLines s2 !! k = Some (Some (Line.new k skt peer)))).
Proof.
  intros Hsized Hskt. split; [| split].
  - intros n Hfree.
    assert (Hlt : n < length (m_apLines s)) by (eapply lookup_lt_Some, Hfree).
    split; [apply FindFreeLine_lowest; assumption |].
    split; [rewrite <- Hsized; exact Hlt |].
    split; [unfold is_occupied; rewrite (proj1 Hfree); reflexivity |].
    split; [apply Hfree |].
    intros Hacc. eexists _, _.
    split; [apply (SocketAccept_lowest s skt peer n Hsized Hfree Hskt Hacc) |].
    simpl.
    split; [apply list_lookup_insert_eq; exact Hlt |].
    split; [intros i Hi; apply list_lookup_insert_ne; congruence |].
    split; [apply lookup_insert_eq |].
    destruct (m_pConnectCallback s); reflexivity.
  - intros Hfull nResult.
    split; [apply SocketAccept_full; assumption | split; reflexivity].
  - intros n line Hline.
    pose proof (Disconnect_connected s n line Hline) as Hdisc.
    eexists _, _. split; [exact Hdisc |].
    set (s1 := with_mapSocket (delete (m_ClientSocket line) (m_mapSocket s))
                 (with_apLines (<[n := None]> (m_apLines s)) s)).
    assert (Hv1 : m_apLines s1 = <[n := None]> (m_apLines s)) by reflexivity.
    assert (Hlt : n < length (m_apLines s)) by (eapply lookup_lt_Some, Hline).
    assert (Hn : m_apLines s1 !! n = Some None).
    { rewrite Hv1. apply list_lookup_insert_eq. exact Hlt. }
    assert (Hsized1 : Server.sized s1).
    { unfold Server.sized. rewrite Hv1, length_insert. exact Hsized. }
    split; [exact Hn |].
    destruct (lowest_free_exists s1 n Hsized1 Hn) as (k & Hle & Hk).
    assert (Hklt : k < length (m_apLines s1)) by (eapply lookup_lt_Some, Hk).
    exists k. split; [exact Hle | split; [exact Hk |]].
    split; [apply FindFreeLine_lowest; assumption |].
    split.
    + intros Hbelow. apply (lowest_free_unique (m_apLines s1)); [exact Hk |].
      split; [exact Hn |]. intros i Hi. unfold is_occupied.
      rewrite Hv1, list_lookup_insert_ne by lia. apply Hbelow. exact Hi.
    + intros Hacc. eexists _, _.
      split; [apply (SocketAccept_lowest s1 skt peer k Hsized1 Hk Hskt Hacc) |].
      simpl. apply list_lookup_insert_eq. rewrite <- Hv1. exact Hklt.
Qed.

Lemma C7_line_allocation_witness :
  Server.sized srv_one /\ 9%Z <> INVALID_SOCKET /\
  lowest_free (m_apLines srv_one) 1 /\ accepted srv_one 1 /\
  (exists s' tr,
     SocketAccept 9 0 None srv_one = Done (tt, s', tr) /\
     m_apLines s' !! 1 = Some (Some (Line.new 1 9 None)) /\
     m_mapSocket s' !! 9%Z = Some 1) /\
  Server.sized srv_full /\ full (m_apLines srv_full) /\
  SocketAccept 9 0 None srv_full =
    Done (tt, srv_full, [EvLock; EvCloseSocket 9; EvUnlock]) /\
  m_apLines srv_full !! 0 = Some (Some line0) /\
  (exists s1 tr1 s2 tr2,
     Disconnect 0 srv_full = Done (tt, s1, tr1) /\
     m_apLines s1 !! 0 = Some None /\
     FindFreeLine (m_nMaxLines s1) 0 s1 = Done (0, s1, []) /\
     SocketAccept 9 0 None s1 = Done (tt, s2, tr2) /\
     m_apLines s2 !! 0 = Some (Some (Line.new 0 9 None))).
Proof.
  assert (Hskt : 9%Z <> INVALID_SOCKET) by (unfold INVALID_SOCKET; lia).
  assert (Hfree : lowest_free (m_apLines srv_one) 1).
  { split; [reflexivity |]. intros i Hi.
    destruct i as [| i]; [reflexivity | lia]. }
  assert (Hfull : full (m_apLines srv_full)).
  { intros i Hi. simpl in Hi.
    destruct i as [| [| i]]; [reflexivity | reflexivity | lia]. }
  split; [reflexivity | split; [exact Hskt | split; [exact Hfree | split; [exact I |]]]].
  split.
  { destruct (proj1 (C7_line_allocation srv_one 9 None eq_refl Hskt) 1 Hfree)
      as (_ & _ & _ & _ & Hok).
    destruct (Hok I) as (s' & tr & Hacc & Hslot & _ & Hmap & _).
    exists s', tr. split; [exact Hacc | split; [exact Hslot | exact Hmap]]. }
  split; [reflexivity | split; [exact Hfull |]].
  split.
  { exact (proj1 (proj1 (proj2 (C7_line_allocation srv_full 9 None eq_refl Hskt))
                   Hfull 0%Z)). }
  split; [reflexivity |].
  destruct (proj2 (proj2 (C7_line_allocation srv_full 9 None eq_refl Hskt))
              0 line0 eq_refl)
    as (s1 & tr1 & Hd & Hn & k & Hle & _ & Hfind & _ & Hnext).
  assert (Hk : k = 0) by lia. subst k.
  assert (Hacc : accepted s1 0).
  { pose proof (Disconnect_connected srv_full 0 line0 eq_refl) as Hc.
    rewrite Hc in Hd. injection Hd as <- _. reflexivity. }
  destruct (Hnext Hacc) as (s2 & tr2 & Ha & Hslot).
  exists s1, tr1, s2, tr2.
  split; [exact Hd | split; [exact Hn | split; [exact Hfind | split; [exact Ha | exact Hslot]]]].
Defined.

End ServerFacts.

(** * Further properties of the TELNET engine *)

Module LineMore.
Import K Line.
Local Open Scope Z_scope.

Ltac split_bytes :=
  repeat match goal with
         | |- context [Z.eqb ?a ?b] => destruct (Z.eqb_spec a b); simpl
         end.

Ltac split_bytes_fast :=
  repeat match goal with
         | |- context [Z.eqb ?a ?b] => destruct (Z.eqb a b); simpl
         end.

Ltac split_opts :=
  repeat match goal with
         | |- context [OPTION_STATE_eqb ?x _] => is_var x; destruct x; simpl
         | |- context [match ?x with
                       | OPT_DISABLED => _ | OPT_ENABLED => _ | OPT_WAITING => _
                       end] => is_var x; destruct x; simpl
         end.

Ltac engine_cases l :=
  destruct l as [n skt ip port sta e ls rs];
  LineFacts.unfold_engine; simpl; destruct sta; simpl.

Lemma exec_ReceiveAll_cons (ch : Z) (bs : list Z) (l : CTerminalLine) :
  exec (ReceiveAll (ch :: bs)) l =
    (let '(l1, t1) := exec (Receive ch) l in
     let '(l2, t2) := exec (ReceiveAll bs) l1 in (l2, t1 ++ t2)).
Proof.
  unfold exec. rewrite LineFacts.ReceiveAll_cons.
  destruct (Receive ch l) as [[u l1] t1].
  destruct (ReceiveAll bs l1) as [[u' l2] t2]. reflexivity.
Qed.

Lemma delivered_app (t1 t2 : list Event) :
  delivered (t1 ++ t2) = delivered t1 ++ delivered t2.
Proof. apply flat_map_app. Qed.

Lemma outbound_app (t1 t2 : list Event) :
  outbound (t1 ++ t2) = outbound t1 ++ outbound t2.
Proof. apply flat_map_app. Qed.

(** X1: from the normal state, IAC IAC gives the host exactly one byte 255,
    and IAC followed by any byte that is not WILL, WONT, DO, DONT or IAC
    gives the host nothing; either way nothing is sent and the line is
    left exactly as it was. *)
Theorem X1_two_byte_commands (c : Z) (l : CTerminalLine) :
  m_staCurrent l = STA_NORMAL ->
  exec (ReceiveAll [IAC; IAC]) l = (l, [EvReceive (m_nLine l) IAC]) /\
  (~ (IAC_WILL <= c <= IAC) -> exec (ReceiveAll [IAC; c]) l = (l, [])).
Proof.
  intros Hsta. destruct l as [n skt ip port sta e ls rs].
  simpl in Hsta. subst sta. split; [reflexivity |].
  intros Hc. LineFacts.unfold_engine. simpl.
  unfold IAC_WILL, IAC_WONT, IAC_DO, IAC_DONT, IAC in *.
  split_bytes; try reflexivity; lia.
Qed.

Lemma X1_two_byte_commands_witness :
  m_staCurrent line0 = STA_NORMAL /\ ~ (IAC_WILL <= 241 <= IAC) /\
  exec (ReceiveAll [IAC; IAC]) line0 = (line0, [EvReceive (m_nLine line0) IAC]) /\
  exec (ReceiveAll [IAC; 241]) line0 = (line0, []).
Proof.
  assert (Hc : ~ (IAC_WILL <= 241 <= IAC)) by (unfold IAC_WILL, IAC; lia).
  split; [reflexivity | split; [exact Hc |]].
  split.
  - exact (proj1 (X1_two_byte_commands 241 line0 eq_refl)).
  - exact (proj2 (X1_two_byte_commands 241 line0 eq_refl) Hc).
Defined.

(** X2: the engine resynchronises: in whatever state it is, it is in the
    normal state again after the next byte or after the next two bytes,
    whatever those bytes are. *)
Theorem X2_back_to_normal_within_two_bytes (b1 b2 : Z) (l : CTerminalLine) :
  m_staCurrent l <> STA_NORMAL ->
  m_staCurrent (fst (exec (Receive b1) l)) = STA_NORMAL \/
  m_staCurrent (fst (exec (ReceiveAll [b1; b2]) l)) = STA_NORMAL.
Proof.
  intros Hsta. engine_cases l; try (exfalso; apply Hsta; reflexivity);
    split_bytes_fast; split_opts;
    first [left; reflexivity | right; reflexivity].
Qed.

Lemma X2_back_to_normal_witness :
  m_staCurrent (with_staCurrent STA_IAC_RCVD line0) <> STA_NORMAL /\
  (m_staCurrent (fst (exec (Receive 253) (with_staCurrent STA_IAC_RCVD line0))) = STA_NORMAL \/
   m_staCurrent (fst (exec (ReceiveAll [253; 1]) (with_staCurrent STA_IAC_RCVD line0)))
     = STA_NORMAL).
Proof.
  assert (H : m_staCurrent (with_staCurrent STA_IAC_RCVD line0) <> STA_NORMAL)
    by discriminate.
  split; [exact H |].
  exact (X2_back_to_normal_within_two_bytes 253 1 (with_staCurrent STA_IAC_RCVD line0) H).
Defined.

(** One byte, in any state: who the events are for and what they are. *)
Lemma Receive_events (ch : Z) (l : CTerminalLine) :
  same_identity l (fst (exec (Receive ch) l)) /\
  Forall (engine_event l) (snd (exec (Receive ch) l)).
Proof.
  unfold same_identity. engine_cases l; split_bytes_fast; split_opts;
    (split; [repeat split; reflexivity |]);
    repeat constructor; unfold IAC_WILL, IAC_WONT, IAC_DO, IAC_DONT; lia.
Qed.

Lemma same_identity_trans (l1 l2 l3 : CTerminalLine) :
  same_identity l1 l2 -> same_identity l2 l3 -> same_identity l1 l3.
Proof.
  intros (A1 & A2 & A3 & A4) (B1 & B2 & B3 & B4). repeat split; congruence.
Qed.

Lemma engine_event_same_identity (l l' : CTerminalLine) (e : Event) :
  same_identity l l' -> engine_event l' e -> engine_event l e.
Proof.
  intros (H1 & H2 & _). destruct e as [n c | skt d | | | | |]; simpl; try tauto.
  - congruence.
  - destruct d as [| i [| c [| o [| x d]]]]; try tauto. rewrite H2. tauto.
Qed.

(** Any run of bytes, in any state. *)
Lemma ReceiveAll_events (bs : list Z) (l : CTerminalLine) :
  same_identity l (fst (exec (ReceiveAll bs) l)) /\
  Forall (engine_event l) (snd (exec (ReceiveAll bs) l)).
Proof.
  revert l. induction bs as [| ch bs IH]; intros l.
  - split; [repeat split; reflexivity | constructor].
  - rewrite exec_ReceiveAll_cons.
    pose proof (Receive_events ch l) as [Hid1 Hev1].
    destruct (exec (Receive ch) l) as [l1 t1]. simpl in Hid1, Hev1.
    specialize (IH l1) as [Hid2 Hev2].
    destruct (exec (ReceiveAll bs) l1) as [l2 t2]. simpl in *.
    split; [eapply same_identity_trans; eassumption |].
    apply Forall_app. split; [exact Hev1 |].
    eapply Forall_impl; [exact Hev2 |].
    intros e He. eapply engine_event_same_identity; eassumption.
Qed.

(** X3: whatever bytes arrive and whatever state the engine is in, feeding
    them changes nothing of the line but its engine state (line number,
    socket, client address and port stay), and everything it does to the
    outside is either a receive callback under the line's own number or a
    three-byte IAC WILL/WONT/DO/DONT command written to the line's own
    socket: it never closes a socket and never calls another callback. *)
Theorem X3_engine_events_are_its_own (bs : list Z) (l : CTerminalLine) :
  same_identity l (fst (exec (ReceiveAll bs) l)) /\
  (forall e, In e (snd (exec (ReceiveAll bs) l)) ->
     (exists ch, e = EvReceive (m_nLine l) ch) \/
     (exists c opt, e = EvSend (m_ClientSocket l) [IAC; c; opt] /\
                    IAC_WILL <= c <= IAC_DONT)) /\
  closed_sockets (snd (exec (ReceiveAll bs) l)) = [] /\
  connect_calls (snd (exec (ReceiveAll bs) l)) = [] /\
  disconnect_calls (snd (exec (ReceiveAll bs) l)) = [].
Proof.
  destruct (ReceiveAll_events bs l) as [Hid Hev].
  split; [exact Hid |].
  assert (Hshape : forall e, In e (snd (exec (ReceiveAll bs) l)) ->
            (exists ch, e = EvReceive (m_nLine l) ch) \/
            (exists c opt, e = EvSend (m_ClientSocket l) [IAC; c; opt] /\
                           IAC_WILL <= c <= IAC_DONT)).
  { intros e He. rewrite Forall_forall in Hev.
    specialize (Hev e (proj2 (list_elem_of_In _ _) He)).
    destruct e as [n ch | skt d | | | | |]; simpl in Hev; try contradiction.
    - left. exists ch. rewrite Hev. reflexivity.
    - destruct d as [| i [| c [| o [| x d]]]]; try contradiction.
      destruct Hev as (-> & -> & Hc). right. exists c, o. split; [reflexivity | exact Hc]. }
  split; [exact Hshape |].
  induction (snd (exec (ReceiveAll bs) l)) as [| e tr IH]; [repeat split; reflexivity |].
  destruct IH as (H1 & H2 & H3).
  { inversion Hev; assumption. }
  { intros e' He'. apply Hshape. right. exact He'. }
  destruct (Hshape e (or_introl eq_refl)) as [[ch ->] | (c & o & -> & _)];
    simpl; repeat split; assumption.
Qed.

(** One byte, in any state: what it can cost. *)
Lemma Receive_budget (ch : Z) (l : CTerminalLine) :
  (length (delivered (snd (exec (Receive ch) l)))
   + 3 * length (outbound (snd (exec (Receive ch) l)))
   + pending (m_staCurrent (fst (exec (Receive ch) l)))
   <= 1 + pending (m_staCurrent l))%nat.
Proof.
  engine_cases l; split_bytes_fast; split_opts; lia.
Qed.

Lemma ReceiveAll_budget (bs : list Z) (l : CTerminalLine) :
  (length (delivered (snd (exec (ReceiveAll bs) l)))
   + 3 * length (outbound (snd (exec (ReceiveAll bs) l)))
   + pending (m_staCurrent (fst (exec (ReceiveAll bs) l)))
   <= length bs + pending (m_staCurrent l))%nat.
Proof.
  revert l. induction bs as [| ch bs IH]; intros l; [simpl; lia |].
  rewrite exec_ReceiveAll_cons.
  pose proof (Receive_budget ch l) as H1.
  destruct (exec (Receive ch) l) as [l1 t1]. simpl in H1.
  specialize (IH l1).
  destruct (exec (ReceiveAll bs) l1) as [l2 t2]. simpl in *.
  rewrite delivered_app, outbound_app, !length_app. lia.
Qed.

(** X4: the client gets no more out of the engine than it puts in.
    Starting in the normal state, every byte handed to the host costs the
    client one byte and every command the engine sends back costs it
    three: bytes delivered plus three times the commands sent never
    exceed the bytes received. *)
Theorem X4_no_amplification (bs : list Z) (l : CTerminalLine) :
  m_staCurrent l = STA_NORMAL ->
  (length (delivered (snd (exec (ReceiveAll bs) l)))
   + 3 * length (outbound (snd (exec (ReceiveAll bs) l)))
   <= length bs)%nat.
Proof.
  intros Hsta. pose proof (ReceiveAll_budget bs l) as H.
  rewrite Hsta in H. simpl in H. lia.
Qed.

Lemma X4_no_amplification_witness :
  m_staCurrent line0 = STA_NORMAL /\
  (length (delivered (snd (exec (ReceiveAll [65; 255; 253; 24; 13; 10; 255; 255]%Z) line0)))
   + 3 * length (outbound (snd (exec (ReceiveAll [65; 255; 253; 24; 13; 10; 255; 255]%Z) line0)))
   <= length [65; 255; 253; 24; 13; 10; 255; 255]%Z)%nat.
Proof.
  split; [reflexivity |].
  exact (X4_no_amplification [65; 255; 253; 24; 13; 10; 255; 255] line0 eq_refl).
Defined.

(** X5: the SUPPRESS-GO-AHEAD handshake closes without a loop, whoever
    starts it.  With both directions Disabled, SuppressGoAhead sends
    IAC WILL SGA and IAC DO SGA and waits; the client's IAC DO SGA and
    IAC WILL SGA, in either order, then enable both directions and are not
    answered.  And when the client speaks first, its IAC WILL SGA and
    IAC DO SGA are answered once each (IAC DO SGA, IAC WILL SGA), both
    directions are Enabled, and a later SuppressGoAhead sends nothing. *)
Theorem X5_SGA_handshake_closes (l : CTerminalLine) :
  m_staCurrent l = STA_NORMAL ->
  m_optLocalSGA l = OPT_DISABLED -> m_optRemoteSGA l = OPT_DISABLED ->
  let skt := m_ClientSocket l in
  let lw := with_optRemoteSGA OPT_WAITING (with_optLocalSGA OPT_WAITING l) in
  let le := with_optRemoteSGA OPT_ENABLED (with_optLocalSGA OPT_ENABLED l) in
  exec SuppressGoAhead l =
    (lw, [EvSend skt [IAC; IAC_WILL; OPT_SGA]; EvSend skt [IAC; IAC_DO; OPT_SGA]]) /\
  exec (ReceiveAll [IAC; IAC_DO; OPT_SGA; IAC; IAC_WILL; OPT_SGA]) lw = (le, []) /\
  exec (ReceiveAll [IAC; IAC_WILL; OPT_SGA; IAC; IAC_DO; OPT_SGA]) lw = (le, []) /\
  exec (ReceiveAll [IAC; IAC_WILL; OPT_SGA; IAC; IAC_DO; OPT_SGA]) l =
    (le, [EvSend skt [IAC; IAC_DO; OPT_SGA]; EvSend skt [IAC; IAC_WILL; OPT_SGA]]) /\
  exec SuppressGoAhead le = (le, []).
Proof.
  intros Hsta Hls Hrs. destruct l as [n skt ip port sta e ls rs].
  simpl in Hsta, Hls, Hrs. subst sta ls rs. repeat split; reflexivity.
Qed.

Lemma X5_SGA_handshake_closes_witness :
  m_staCurrent line0 = STA_NORMAL /\
  m_optLocalSGA line0 = OPT_DISABLED /\ m_optRemoteSGA line0 = OPT_DISABLED /\
  let skt := m_ClientSocket line0 in
  let lw := with_optRemoteSGA OPT_WAITING (with_optLocalSGA OPT_WAITING line0) in
  let le := with_optRemoteSGA OPT_ENABLED (with_optLocalSGA OPT_ENABLED line0) in
  exec SuppressGoAhead line0 =
    (lw, [EvSend skt [IAC; IAC_WILL; OPT_SGA]; EvSend skt [IAC; IAC_DO; OPT_SGA]]) /\
  exec (ReceiveAll [IAC; IAC_DO; OPT_SGA; IAC; IAC_WILL; OPT_SGA]) lw = (le, []) /\
  exec (ReceiveAll [IAC; IAC_WILL; OPT_SGA; IAC; IAC_DO; OPT_SGA]) lw = (le, []) /\
  exec (ReceiveAll [IAC; IAC_WILL; OPT_SGA; IAC; IAC_DO; OPT_SGA]) line0 =
    (le, [EvSend skt [IAC; IAC_DO; OPT_SGA]; EvSend skt [IAC; IAC_WILL; OPT_SGA]]) /\
  exec SuppressGoAhead le = (le, []).
Proof.
  split; [reflexivity | split; [reflexivity | split; [reflexivity |]]].
  exact (X5_SGA_handshake_closes line0 eq_refl eq_refl eq_refl).
Defined.

(** One byte, in any state: which way the options can move. *)
Lemma Receive_options (ch : Z) (l : CTerminalLine) :
  let l' := fst (exec (Receive ch) l) in
  (sga_rank (m_optLocalSGA l) <= sga_rank (m_optLocalSGA l'))%nat /\
  (sga_rank (m_optRemoteSGA l) <= sga_rank (m_optRemoteSGA l'))%nat /\
  (m_optLocalEcho l = OPT_ENABLED -> m_optLocalEcho l' = OPT_ENABLED) /\
  (m_optLocalEcho l <> OPT_WAITING -> m_optLocalEcho l' <> OPT_WAITING).
Proof.
  engine_cases l; split_bytes_fast; split_opts;
    (split; [| split; [| split]]); simpl;
    first [lia | congruence | destruct ls; simpl; lia | destruct rs; simpl; lia].
Qed.

(** X6: a SUPPRESS-GO-AHEAD option never falls back.  Whatever bytes the
    client sends, in whatever state, and whenever the host calls
    SetLocalEcho or SuppressGoAhead, each of the two SGA options only moves
    from Disabled towards Waiting and Enabled; in particular a direction
    that is Enabled stays Enabled. *)
Theorem X6_SGA_never_falls_back (bs : list Z) (fEcho : bool) (l : CTerminalLine) :
  let after_bytes := fst (exec (ReceiveAll bs) l) in
  let after_echo := fst (exec (SetLocalEcho fEcho) l) in
  let after_sga := fst (exec SuppressGoAhead l) in
  (sga_rank (m_optLocalSGA l) <= sga_rank (m_optLocalSGA after_bytes))%nat /\
  (sga_rank (m_optRemoteSGA l) <= sga_rank (m_optRemoteSGA after_bytes))%nat /\
  m_optLocalSGA after_echo = m_optLocalSGA l /\
  m_optRemoteSGA after_echo = m_optRemoteSGA l /\
  (sga_rank (m_optLocalSGA l) <= sga_rank (m_optLocalSGA after_sga))%nat /\
  (sga_rank (m_optRemoteSGA l) <= sga_rank (m_optRemoteSGA after_sga))%nat /\
  (m_optLocalSGA l = OPT_ENABLED -> m_optLocalSGA after_bytes = OPT_ENABLED) /\
  (m_optRemoteSGA l = OPT_ENABLED -> m_optRemoteSGA after_bytes = OPT_ENABLED).
Proof.
  assert (Hbytes : forall l0,
    (sga_rank (m_optLocalSGA l0) <= sga_rank (m_optLocalSGA (fst (exec (ReceiveAll bs) l0))))%nat /\
    (sga_rank (m_optRemoteSGA l0) <= sga_rank (m_optRemoteSGA (fst (exec (ReceiveAll bs) l0))))%nat).
  { induction bs as [| ch bs IH]; intros l0; [split; reflexivity |].
    rewrite exec_ReceiveAll_cons.
    pose proof (Receive_options ch l0) as (H1 & H2 & _).
    destruct (exec (Receive ch) l0) as [l1 t1]. simpl in H1, H2.
    specialize (IH l1) as [H3 H4].
    destruct (exec (ReceiveAll bs) l1) as [l2 t2]. simpl in *. lia. }
  destruct (Hbytes l) as [Hl Hr]. simpl.
  split; [exact Hl | split; [exact Hr |]].
  split; [destruct l as [n skt ip port sta e ls rs]; destruct fEcho, e; reflexivity |].
  split; [destruct l as [n skt ip port sta e ls rs]; destruct fEcho, e; reflexivity |].
  split; [destruct l as [n skt ip port sta e ls rs]; destruct ls, rs; simpl; lia |].
  split; [destruct l as [n skt ip port sta e ls rs]; destruct ls, rs; simpl; lia |].
  split.
  - intros He. rewrite He in Hl. simpl in Hl.
    destruct (m_optLocalSGA (fst (exec (ReceiveAll bs) l))); simpl in Hl; [lia | reflexivity | lia].
  - intros He. rewrite He in Hr. simpl in Hr.
    destruct (m_optRemoteSGA (fst (exec (ReceiveAll bs) l))); simpl in Hr; [lia | reflexivity | lia].
Qed.

(** X7: a refusal is never answered.  In the normal state, IAC WONT opt,
    for every option, and IAC DONT opt, for every option but ECHO, send
    nothing, deliver nothing and leave the line exactly as it was (so a
    refused SUPPRESS-GO-AHEAD stays Waiting and the connection stays up);
    IAC DONT ECHO sets the echo option to Enabled, whatever it was, and is
    not answered either. *)
Theorem X7_refusals_are_silent (opt : Z) (l : CTerminalLine) :
  m_staCurrent l = STA_NORMAL ->
  exec (ReceiveAll [IAC; IAC_WONT; opt]) l = (l, []) /\
  (opt <> OPT_ECHO -> exec (ReceiveAll [IAC; IAC_DONT; opt]) l = (l, [])) /\
  exec (ReceiveAll [IAC; IAC_DONT; OPT_ECHO]) l = (with_optLocalEcho OPT_ENABLED l, []).
Proof.
  intros Hsta. destruct l as [n skt ip port sta e ls rs].
  simpl in Hsta. subst sta. split; [reflexivity | split; [| reflexivity]].
  intros Hopt. LineFacts.unfold_engine. simpl.
  destruct (opt =? OPT_SGA); simpl; [reflexivity |].
  destruct (Z.eqb_spec opt OPT_ECHO); [contradiction | reflexivity].
Qed.

Lemma X7_refusals_are_silent_witness :
  m_staCurrent line0 = STA_NORMAL /\ OPT_SGA <> OPT_ECHO /\
  exec (ReceiveAll [IAC; IAC_WONT; OPT_SGA]) line0 = (line0, []) /\
  exec (ReceiveAll [IAC; IAC_DONT; OPT_SGA]) line0 = (line0, []).
Proof.
  assert (Hne : OPT_SGA <> OPT_ECHO) by (unfold OPT_SGA, OPT_ECHO; lia).
  split; [reflexivity | split; [exact Hne |]].
  split.
  - exact (proj1 (X7_refusals_are_silent OPT_SGA line0 eq_refl)).
  - exact (proj1 (proj2 (X7_refusals_are_silent OPT_SGA line0 eq_refl)) Hne).
Defined.

(** X8: the client cannot open an echo negotiation, nor turn its own
    local echo off, by itself.  Whatever bytes it sends, in whatever state
    the engine is, an echo option that is Enabled stays Enabled, and one
    that is Disabled ends Disabled or Enabled: received bytes never put
    the option into Waiting, and neither does SuppressGoAhead, which
    leaves it alone; of the calls that run the engine only SetLocalEcho
    does.  The one change the client can make unasked is from Disabled to
    Enabled, with IAC DONT ECHO. *)
Theorem X8_input_never_opens_echo_negotiation (bs : list Z) (l : CTerminalLine) :
  (m_optLocalEcho l = OPT_ENABLED ->
   m_optLocalEcho (fst (exec (ReceiveAll bs) l)) = OPT_ENABLED) /\
  (m_optLocalEcho l = OPT_DISABLED ->
   m_optLocalEcho (fst (exec (ReceiveAll bs) l)) = OPT_DISABLED \/
   m_optLocalEcho (fst (exec (ReceiveAll bs) l)) = OPT_ENABLED) /\
  (m_optLocalEcho l <> OPT_WAITING ->
   m_optLocalEcho (fst (exec (ReceiveAll bs) l)) <> OPT_WAITING) /\
  m_optLocalEcho (fst (exec SuppressGoAhead l)) = m_optLocalEcho l /\
  (m_optLocalEcho l <> OPT_WAITING ->
   m_optLocalEcho (fst (exec (SetLocalEcho (negb (OPTION_STATE_eqb (m_optLocalEcho l) OPT_ENABLED))) l))
     = OPT_WAITING) /\
  (m_staCurrent l = STA_NORMAL -> m_optLocalEcho l = OPT_DISABLED ->
   m_optLocalEcho (fst (exec (ReceiveAll [IAC; IAC_DONT; OPT_ECHO]) l)) = OPT_ENABLED).
Proof.
  assert (Hbytes : forall l0,
    (m_optLocalEcho l0 = OPT_ENABLED ->
     m_optLocalEcho (fst (exec (ReceiveAll bs) l0)) = OPT_ENABLED) /\
    (m_optLocalEcho l0 <> OPT_WAITING ->
     m_optLocalEcho (fst (exec (ReceiveAll bs) l0)) <> OPT_WAITING)).
  { induction bs as [| ch bs IH]; intros l0; [split; trivial |].
    rewrite exec_ReceiveAll_cons.
    pose proof (Receive_options ch l0) as (_ & _ & H1 & H2).
    destruct (exec (Receive ch) l0) as [l1 t1]. simpl in H1, H2.
    specialize (IH l1) as [H3 H4].
    destruct (exec (ReceiveAll bs) l1) as [l2 t2]. simpl in *.
    split; intros H; [apply H3, H1, H | apply H4, H2, H]. }
  destruct (Hbytes l) as [Hen Hnw].
  split; [exact Hen |]. split.
  { intros Hdis.
    assert (Hne : m_optLocalEcho l <> OPT_WAITING) by (rewrite Hdis; discriminate).
    specialize (Hnw Hne).
    destruct (m_optLocalEcho (fst (exec (ReceiveAll bs) l)));
      [left; reflexivity | right; reflexivity | contradiction]. }
  split; [exact Hnw |]. split.
  { destruct l as [n skt ip port sta e ls rs]. destruct ls, rs; reflexivity. }
  split.
  { destruct l as [n skt ip port sta e ls rs]. simpl.
    destruct e; intros Hne; [reflexivity | reflexivity | contradiction]. }
  intros Hsta Hdis. destruct l as [n skt ip port sta e ls rs].
  simpl in Hsta, Hdis. subst sta e. reflexivity.
Qed.

Lemma X8_input_never_opens_echo_negotiation_witness :
  m_optLocalEcho line0 = OPT_ENABLED /\
  m_optLocalEcho (fst (exec (ReceiveAll [255; 253; 1; 255; 251; 1; 65]) line0)) = OPT_ENABLED /\
  m_optLocalEcho (with_optLocalEcho OPT_DISABLED line0) = OPT_DISABLED /\
  m_staCurrent (with_optLocalEcho OPT_DISABLED line0) = STA_NORMAL /\
  m_optLocalEcho (fst (exec (ReceiveAll [IAC; IAC_DONT; OPT_ECHO])
                            (with_optLocalEcho OPT_DISABLED line0))) = OPT_ENABLED.
Proof.
  split; [reflexivity |].
  split.
  { exact (proj1 (X8_input_never_opens_echo_negotiation
                    [255; 253; 1; 255; 251; 1; 65] line0) eq_refl). }
  split; [reflexivity | split; [reflexivity |]].
  exact (proj2 (proj2 (proj2 (proj2 (proj2
           (X8_input_never_opens_echo_negotiation [] (with_optLocalEcho OPT_DISABLED line0))))))
           eq_refl eq_refl).
Defined.

End LineMore.

(** * Properties of [Send] and [SendFile] *)

Module LineIOFacts.
Import K Line LineIO.
Local Open Scope Z_scope.

Lemma fgets_chars_rest (n : nat) (stream : list Z) :
  (length (snd (fgets_chars n stream)) <= length stream)%nat /\
  (length (fst (fgets_chars n stream)) <= n)%nat.
Proof.
  revert stream. induction n as [| n IH]; intros [| c rest]; simpl; try lia.
  destruct (c =? CHLFD); simpl; [lia |].
  specialize (IH rest). destruct (fgets_chars n rest) as [buf rest']. simpl in *. lia.
Qed.

Lemma fgets_chars_consumes (n : nat) (c : Z) (stream : list Z) :
  (length (snd (fgets_chars (S n) (c :: stream))) <= length stream)%nat.
Proof.
  simpl. destruct (c =? CHLFD); simpl; [lia |].
  pose proof (fgets_chars_rest n stream) as [H _].
  destruct (fgets_chars n stream) as [buf rest']. simpl in *. lia.
Qed.

(** [ReadLine] as [SendFile] calls it. *)
Lemma ReadLine_255 (stream : list Z) :
  ReadLine 255 stream =
    match stream with
    | [] => Done None
    | _ :: _ =>
        Done (Some (strip_newline (c_str (fst (fgets_chars 254 stream))),
                    snd (fgets_chars 254 stream)))
    end.
Proof.
  unfold ReadLine, Read. change (negb (2 <? 255)%nat) with false.
  change (255 - 1)%nat with 254%nat. cbv iota.
  destruct stream as [| c stream']; [reflexivity |].
  destruct (fgets_chars 254 (c :: stream')) as [buf rest]. reflexivity.
Qed.

Lemma ReadLine_consumes (stream sz rest : list Z) :
  ReadLine 255 stream = Done (Some (sz, rest)) ->
  (length rest < length stream)%nat.
Proof.
  rewrite ReadLine_255. destruct stream as [| c stream']; [discriminate |].
  pose proof (fgets_chars_consumes 253 c stream') as Hle.
  change (S 253) with 254%nat in Hle.
  destruct (fgets_chars 254 (c :: stream')) as [buf rest'].
  intros H. injection H as _ Hrest. subst rest'.
  change (length (c :: stream')) with (S (length stream')).
  change (length (buf, rest).2) with (length rest) in Hle. lia.
Qed.

(** One turn of the loop of [SendFile]. *)
Lemma SendFile_loop_S (os_send : nat -> list Z -> Z) (fuel : nat)
    (stream : list Z) (nSent : nat) (l : CTerminalLine) :
  SendFile_loop os_send (S fuel) stream nSent l =
    match ReadLine 255 stream with
    | Done (Some (sz, rest)) =>
        if os_send nSent sz =? Z.of_nat (length sz) then
          if os_send (S nSent) [CHCRT; CHLFD] =? 2 then
            let '(b, l', tr) := SendFile_loop os_send fuel rest (S (S nSent)) l in
            (b, l', EvSend (m_ClientSocket l) sz
                      :: EvSend (m_ClientSocket l) [CHCRT; CHLFD] :: tr)
          else (false, l, [EvSend (m_ClientSocket l) sz;
                           EvSend (m_ClientSocket l) [CHCRT; CHLFD]])
        else (false, l, [EvSend (m_ClientSocket l) sz])
    | _ => (true, l, [])
    end.
Proof.
  cbn [SendFile_loop].
  destruct (ReadLine 255 stream) as [[[sz rest] |] | f]; try reflexivity.
  unfold Send, SocketWrite_result, this, emit, ret, bind. cbv beta iota.
  change (Z.of_nat (length [CHCRT; CHLFD])) with 2.
  destruct (os_send nSent sz =? Z.of_nat (length sz)); [| reflexivity].
  destruct (os_send (S nSent) [CHCRT; CHLFD] =? 2); [| reflexivity].
  cbv beta iota.
  destruct (SendFile_loop os_send fuel rest (S (S nSent)) l) as [[b l'] tr].
  reflexivity.
Qed.

(** The bound on the iterations is never what ends the loop: with more
    fuel than characters, one more unit of fuel changes nothing. *)
Lemma SendFile_loop_fuel (os_send : nat -> list Z -> Z) (fuel : nat)
    (stream : list Z) (nSent : nat) (l : CTerminalLine) :
  (length stream < fuel)%nat ->
  SendFile_loop os_send (S fuel) stream nSent l = SendFile_loop os_send fuel stream nSent l.
Proof.
  revert stream nSent l. induction fuel as [| fuel IH]; intros stream nSent l Hlen; [lia |].
  rewrite (SendFile_loop_S os_send (S fuel)), (SendFile_loop_S os_send fuel).
  destruct (ReadLine 255 stream) as [[[sz rest] |] | f] eqn:E; try reflexivity.
  apply ReadLine_consumes in E. rewrite IH by lia. reflexivity.
Qed.

Lemma fgets_chars_line (n : nat) (line rest : list Z) :
  (length line < n)%nat -> Forall (fun c => c <> CHLFD) line ->
  fgets_chars n (line ++ CHLFD :: rest) = (line ++ [CHLFD], rest).
Proof.
  revert n. induction line as [| c line IH]; intros n Hlen Hline.
  - destruct n as [| n]; [simpl in Hlen; lia | reflexivity].
  - destruct n as [| n]; [simpl in Hlen; lia |].
    inversion Hline as [| ? ? Hc Hline']; subst. simpl.
    destruct (Z.eqb_spec c CHLFD); [contradiction |].
    rewrite IH; [reflexivity | simpl in Hlen; lia | exact Hline'].
Qed.

Lemma c_str_no_nul (buf : list Z) :
  Forall (fun c => c <> CHNUL) buf -> c_str buf = buf.
Proof.
  induction 1 as [| c buf Hc _ IH]; [reflexivity |]. simpl.
  destruct (Z.eqb_spec c CHNUL); [contradiction | now rewrite IH].
Qed.

Lemma c_str_length (buf : list Z) : (length (c_str buf) <= length buf)%nat.
Proof.
  induction buf as [| c buf IH]; simpl; [lia |].
  destruct (c =? CHNUL); simpl; lia.
Qed.

Lemma strip_newline_snoc (line : list Z) : strip_newline (line ++ [CHLFD]) = line.
Proof.
  unfold strip_newline. rewrite last_snoc. simpl. apply removelast_last.
Qed.

Lemma strip_newline_length (sz : list Z) : (length (strip_newline sz) <= length sz)%nat.
Proof.
  unfold strip_newline. destruct (last sz) as [c |]; [| lia].
  destruct (c =? CHLFD); [| lia].
  induction sz as [| a [| b sz] IH]; simpl in *; lia.
Qed.

Lemma ReadLine_plain (line rest : list Z) :
  plain_line line ->
  ReadLine 255 (line ++ CHLFD :: rest) = Done (Some (line, rest)).
Proof.
  intros [Hlen Hline]. rewrite ReadLine_255.
  rewrite fgets_chars_line;
    [| lia | eapply Forall_impl; [exact Hline | intros c [_ Hc]; exact Hc]].
  simpl fst. simpl snd. rewrite c_str_no_nul, strip_newline_snoc.
  - destruct line; reflexivity.
  - apply Forall_app. split.
    + eapply Forall_impl; [exact Hline | intros c [Hc _]; exact Hc].
    + constructor; [unfold CHLFD, CHNUL; lia | constructor].
Qed.

Lemma ReadLine_length (stream sz rest : list Z) :
  ReadLine 255 stream = Done (Some (sz, rest)) -> (length sz <= 254)%nat.
Proof.
  rewrite ReadLine_255. destruct stream as [| c stream']; [discriminate |].
  pose proof (fgets_chars_rest 254 (c :: stream')) as [_ Hbuf].
  destruct (fgets_chars 254 (c :: stream')) as [buf rest'].
  intros H. injection H as Hsz _. subst sz.
  change ((buf, rest').1) with buf in *.
  pose proof (strip_newline_length (c_str buf)). pose proof (c_str_length buf). lia.
Qed.

Lemma SendFile_loop_lines (os_send : nat -> list Z -> Z) (lines : list (list Z))
    (fuel nSent : nat) (l : CTerminalLine) :
  takes_all os_send -> Forall plain_line lines -> (length lines < fuel)%nat ->
  SendFile_loop os_send fuel (text_of_lines lines) nSent l =
    (true, l, writes_of_lines (m_ClientSocket l) lines).
Proof.
  intros Hos Hlines. revert fuel nSent.
  induction Hlines as [| line lines Hline _ IH]; intros fuel nSent Hfuel.
  - destruct fuel; reflexivity.
  - destruct fuel as [| fuel]; [simpl in Hfuel; lia |].
    rewrite SendFile_loop_S.
    change (text_of_lines (line :: lines))
      with ((line ++ [CHLFD]) ++ text_of_lines lines).
    rewrite <- app_assoc. simpl app at 2.
    rewrite (ReadLine_plain line _ Hline).
    rewrite !Hos, !Z.eqb_refl.
    rewrite IH by (simpl in Hfuel; lia). reflexivity.
Qed.

Lemma text_of_lines_length (lines : list (list Z)) :
  (length lines <= length (text_of_lines lines))%nat.
Proof.
  induction lines as [| line lines IH]; simpl; [lia |].
  rewrite !length_app. simpl. lia.
Qed.

(** X9: a text file goes out line by line, each line followed by CR LF.
    When the file opens, each of its lines fits the buffer (at most 253
    characters, no NUL) and the OS takes every write in full, SendFile
    returns true, writes each line as it is followed by the two bytes
    13, 10, in file order, hands nothing to the host and leaves the
    engine untouched. *)
Theorem X9_SendFile_sends_lines_with_CRLF
    (os_send : nat -> list Z -> Z) (lines : list (list Z)) (l : CTerminalLine) :
  takes_all os_send -> Forall plain_line lines ->
  SendFile (Some (text_of_lines lines)) os_send l =
    (true, l, writes_of_lines (m_ClientSocket l) lines) /\
  outbound (writes_of_lines (m_ClientSocket l) lines) =
    flat_map (fun line => [line; [CHCRT; CHLFD]]) lines /\
  delivered (writes_of_lines (m_ClientSocket l) lines) = [].
Proof.
  intros Hos Hlines. split; [| split].
  - unfold SendFile. apply SendFile_loop_lines; [exact Hos | exact Hlines |].
    pose proof (text_of_lines_length lines). lia.
  - induction lines as [| line lines IH]; [reflexivity |].
    inversion Hlines; subst. simpl. rewrite IH by assumption. reflexivity.
  - induction lines as [| line lines IH]; [reflexivity |].
    inversion Hlines; subst. simpl. apply IH. assumption.
Qed.

Lemma X9_SendFile_witness :
  takes_all (fun _ abData => Z.of_nat (length abData)) /\
  Forall plain_line [[72; 105]; []] /\
  SendFile (Some (text_of_lines [[72; 105]; []]))
           (fun _ abData => Z.of_nat (length abData)) line0 =
    (true, line0,
     [EvSend 7 [72; 105]; EvSend 7 [13; 10]; EvSend 7 []; EvSend 7 [13; 10]]).
Proof.
  assert (Hos : takes_all (fun _ abData => Z.of_nat (length abData)))
    by (intros k d; reflexivity).
  assert (Hlines : Forall plain_line [[72; 105]; []]).
  { repeat constructor; simpl; unfold CHNUL, CHLFD; lia. }
  split; [exact Hos | split; [exact Hlines |]].
  exact (proj1 (X9_SendFile_sends_lines_with_CRLF _ [[72; 105]; []] line0 Hos Hlines)).
Defined.

(** A line longer than the buffer is cut: 300 characters go out as 254
    and 46, each piece followed by CR LF. *)
Example SendFile_long_line :
  map (fun d => length d)
      (outbound (snd (SendFile (Some (repeat 65 300 ++ [10]))
                               (fun _ abData => Z.of_nat (length abData)) line0)))
  = [254; 2; 46; 2]%nat.
Proof. vm_compute. reflexivity. Qed.

(** The loop of [SendFile], from any point of the file and any count of
    writes made so far. *)
Lemma SendFile_loop_writes (os_send : nat -> list Z -> Z) (fuel : nat)
    (stream : list Z) (nSent : nat) (l : CTerminalLine) :
  exists (b : bool) (ds : list (list Z)),
    SendFile_loop os_send fuel stream nSent l =
      (b, l, map (EvSend (m_ClientSocket l)) ds) /\
    Forall (fun d => (length d <= 254)%nat) ds /\
    (forall k d, ds !! k = Some d -> (S k < length ds)%nat \/ b = true ->
       os_send (nSent + k)%nat d = Z.of_nat (length d)) /\
    (b = false ->
     exists k d, length ds = S k /\ ds !! k = Some d /\
                 os_send (nSent + k)%nat d <> Z.of_nat (length d)).
Proof.
  revert stream nSent. induction fuel as [| fuel IH]; intros stream nSent.
  { exists true, []. split; [reflexivity | split; [constructor | split]].
    - intros k d Hk. rewrite lookup_nil in Hk. discriminate.
    - discriminate. }
  rewrite SendFile_loop_S.
  destruct (ReadLine 255 stream) as [[[sz rest] |] | f] eqn:E.
  2, 3: exists true, []; (split; [reflexivity | split; [constructor | split]]);
        [intros k d Hk; rewrite lookup_nil in Hk; discriminate | discriminate].
  apply ReadLine_length in E.
  destruct (Z.eqb_spec (os_send nSent sz) (Z.of_nat (length sz))) as [Hsz | Hsz].
  2: { exists false, [sz]. split; [reflexivity | split; [constructor; [exact E | constructor] | split]].
       - intros k d Hk [Hlt | Hb]; [simpl in Hlt; lia | discriminate].
       - intros _. exists 0%nat, sz. rewrite Nat.add_0_r. repeat split; assumption. }
  destruct (Z.eqb_spec (os_send (S nSent) [CHCRT; CHLFD]) 2) as [Hcr | Hcr].
  2: { exists false, [sz; [CHCRT; CHLFD]].
       split; [reflexivity |].
       split; [constructor; [exact E | constructor; [simpl; lia | constructor]] | split].
       - intros k d Hk [Hlt | Hb]; [| discriminate].
         destruct k as [| k]; [| simpl in Hlt; lia].
         injection Hk as <-. rewrite Nat.add_0_r. exact Hsz.
       - intros _. exists 1%nat, [CHCRT; CHLFD].
         replace (nSent + 1)%nat with (S nSent) by lia.
         repeat split; simpl; assumption. }
  destruct (IH rest (S (S nSent))) as (b & ds & Hloop & Hlen & Hok & Hbad).
  rewrite Hloop. exists b, (sz :: [CHCRT; CHLFD] :: ds).
  split; [reflexivity |].
  split; [constructor; [exact E | constructor; [simpl; lia | exact Hlen]] | split].
  - intros [| [| k]] d Hk Hcond; simpl in Hk.
    + injection Hk as <-. rewrite Nat.add_0_r. exact Hsz.
    + injection Hk as <-. replace (nSent + 1)%nat with (S nSent) by lia. exact Hcr.
    + replace (nSent + S (S k))%nat with (S (S nSent) + k)%nat by lia.
      apply Hok; [exact Hk |]. simpl in Hcond. destruct Hcond; [left; lia | right; assumption].
  - intros Hb. destruct (Hbad Hb) as (k & d & Hk & Hd & Hno).
    exists (S (S k)), d. simpl. rewrite Hk.
    replace (nSent + S (S k))%nat with (S (S nSent) + k)%nat by lia.
    repeat split; assumption.
Qed.

(** X10: SendFile stops at the first write the OS does not take in full.
    Whatever the file and whatever the OS answers, SendFile leaves the
    engine untouched and does nothing but write to the line's socket, at
    most 254 bytes at a time; every write before the last was taken in
    full; it returns true only if the last one was too, and false only
    if the file did not open (nothing written) or the last write was
    refused. *)
Theorem X10_SendFile_stops_at_first_refusal
    (file : option (list Z)) (os_send : nat -> list Z -> Z) (l : CTerminalLine) :
  exists (b : bool) (ds : list (list Z)),
    SendFile file os_send l = (b, l, map (EvSend (m_ClientSocket l)) ds) /\
    Forall (fun d => (length d <= 254)%nat) ds /\
    (forall k d, ds !! k = Some d -> (S k < length ds)%nat \/ b = true ->
       os_send k d = Z.of_nat (length d)) /\
    (b = false ->
     (file = None /\ ds = []) \/
     exists k d, length ds = S k /\ ds !! k = Some d /\
                 os_send k d <> Z.of_nat (length d)) /\
    (file = None -> b = false /\ ds = []).
Proof.
  destruct file as [stream |].
  - destruct (SendFile_loop_writes os_send (S (length stream)) stream 0 l)
      as (b & ds & Hloop & Hlen & Hok & Hbad).
    exists b, ds. split; [exact Hloop | split; [exact Hlen | split; [exact Hok |]]].
    split; [| discriminate]. intros Hb. right. exact (Hbad Hb).
  - exists false, []. split; [reflexivity | split; [constructor | split]].
    + intros k d Hk. rewrite lookup_nil in Hk. discriminate.
    + split; [intros _; left; split; reflexivity | intros _; split; reflexivity].
Qed.

End LineIOFacts.

(** * Properties of the address helpers *)

Module NetFacts.
Import Net.
Local Open Scope Z_scope.

Lemma testbit_255 (i : Z) : Z.testbit 255 i = (0 <=? i) && (i <? 8).
Proof. change 255 with (Z.ones 8). apply Z.testbit_ones. lia. Qed.

(** Bit [i] of an octet put at bit [k]. *)
Lemma testbit_field (x k i : Z) :
  0 <= k -> 0 <= i ->
  Z.testbit (Z.shiftl (Z.land x 255) k) i =
    Z.testbit x (i - k) && ((k <=? i) && (i <? k + 8)).
Proof.
  intros Hk Hi. rewrite Z.shiftl_spec by exact Hi.
  rewrite Z.land_spec, testbit_255. f_equal.
  destruct (Z.leb_spec k i), (Z.ltb_spec i (k + 8)),
    (Z.leb_spec 0 (i - k)), (Z.ltb_spec (i - k) 8); try lia; reflexivity.
Qed.

Lemma testbit_ip_pack (a b c d i : Z) :
  0 <= i ->
  Z.testbit (ip_pack a b c d) i =
    Z.testbit a (i - 24) && ((24 <=? i) && (i <? 32))
    || Z.testbit b (i - 16) && ((16 <=? i) && (i <? 24))
    || Z.testbit c (i - 8) && ((8 <=? i) && (i <? 16))
    || Z.testbit d i && (i <? 8).
Proof.
  intros Hi. unfold ip_pack. rewrite !Z.lor_spec, !testbit_field by lia.
  rewrite Z.land_spec, testbit_255.
  destruct (Z.leb_spec 0 i); [| lia]. reflexivity.
Qed.

Lemma testbit_octet (x k i : Z) :
  0 <= k -> 0 <= i ->
  Z.testbit (Z.land (Z.shiftr x k) 255) i = Z.testbit x (i + k) && (i <? 8).
Proof.
  intros Hk Hi. rewrite Z.land_spec, Z.shiftr_spec, testbit_255 by exact Hi.
  destruct (Z.leb_spec 0 i); [| lia]. reflexivity.
Qed.

(** X11: the byte order of FormatIPaddress and ParseIPaddress agree: the
    four numbers FormatIPaddress prints for a 32-bit address, packed the
    way ParseIPaddress packs the four numbers it reads, give the address
    back. *)
Theorem X11_ip_pack_octets (lIP : Z) :
  0 <= lIP < 2 ^ 32 ->
  let '(a, b, c, d) := ip_octets lIP in ip_pack a b c d = lIP.
Proof.
  intros H. unfold ip_octets. apply Z.bits_inj'. intros i Hi.
  rewrite testbit_ip_pack by exact Hi.
  assert (Hhigh : 32 <= i -> Z.testbit lIP i = false).
  { intros Hge. destruct (Z.eq_dec lIP 0) as [-> | Hne]; [apply Z.bits_0 |].
    apply Z.bits_above_log2; [lia |].
    assert (Z.log2 lIP < 32) by (apply Z.log2_lt_pow2; lia). lia. }
  destruct (Z.leb_spec 24 i), (Z.ltb_spec i 32), (Z.leb_spec 16 i), (Z.ltb_spec i 24),
    (Z.leb_spec 8 i), (Z.ltb_spec i 16), (Z.ltb_spec i 8); try lia;
    rewrite ?andb_false_r, ?andb_true_r, ?orb_false_r, ?orb_false_l.
  - rewrite testbit_octet by lia. replace (i - 24 + 24) with i by lia.
    destruct (Z.ltb_spec (i - 24) 8); [| lia]. apply andb_true_r.
  - symmetry. apply Hhigh. lia.
  - rewrite testbit_octet by lia. replace (i - 16 + 16) with i by lia.
    destruct (Z.ltb_spec (i - 16) 8); [| lia]. apply andb_true_r.
  - rewrite testbit_octet by lia. replace (i - 8 + 8) with i by lia.
    destruct (Z.ltb_spec (i - 8) 8); [| lia]. apply andb_true_r.
  - rewrite Z.land_spec, testbit_255.
    destruct (Z.leb_spec 0 i), (Z.ltb_spec i 8); try lia. apply andb_true_r.
Qed.

Lemma ip_pack_field (a b c d x k : Z) :
  0 <= k ->
  (forall i, 0 <= i < 8 -> Z.testbit (ip_pack a b c d) (i + k) = Z.testbit x i) ->
  Z.land (Z.shiftr (ip_pack a b c d) k) 255 = Z.land x 255.
Proof.
  intros Hk Hbits. apply Z.bits_inj'. intros i Hi.
  rewrite testbit_octet by lia. rewrite Z.land_spec, testbit_255.
  destruct (Z.leb_spec 0 i); [| lia]. destruct (Z.ltb_spec i 8).
  - rewrite Hbits by lia. reflexivity.
  - rewrite !andb_false_r. reflexivity.
Qed.

Ltac field_bits k :=
  let i := fresh "i" in let Hi := fresh "Hi" in
  intros i Hi; rewrite testbit_ip_pack by lia;
  destruct (Z.leb_spec 24 (i + k)), (Z.ltb_spec (i + k) 32),
    (Z.leb_spec 16 (i + k)), (Z.ltb_spec (i + k) 24),
    (Z.leb_spec 8 (i + k)), (Z.ltb_spec (i + k) 16), (Z.ltb_spec (i + k) 8);
    try lia;
  rewrite ?andb_false_r, ?andb_true_r, ?orb_false_r, ?orb_false_l;
  f_equal; lia.

Lemma X11_ip_pack_octets_witness :
  0 <= 2130706433 < 2 ^ 32 /\
  ip_octets 2130706433 = (127, 0, 0, 1) /\
  let '(a, b, c, d) := ip_octets 2130706433 in ip_pack a b c d = 2130706433.
Proof.
  assert (H : 0 <= 2130706433 < 2 ^ 32) by lia.
  split; [exact H | split; [reflexivity |]].
  exact (X11_ip_pack_octets 2130706433 H).
Defined.

(** X12: ParseIPaddress keeps only the low eight bits of each of the four
    numbers it has read: whatever they are, the address it stores prints
    back, through FormatIPaddress, as those numbers modulo 256 (so
    "300.1.1.1" is stored as 44.1.1.1). *)
Theorem X12_ip_octets_of_pack (a b c d : Z) :
  ip_octets (ip_pack a b c d) = (Z.land a 255, Z.land b 255, Z.land c 255, Z.land d 255) /\
  Z.land a 255 = a mod 256.
Proof.
  split; [| change 255 with (Z.ones 8); apply Z.land_ones; lia].
  unfold ip_octets.
  rewrite (ip_pack_field a b c d a 24), (ip_pack_field a b c d b 16),
    (ip_pack_field a b c d c 8);
    try lia; try (field_bits 24); try (field_bits 16); try (field_bits 8).
  rewrite <- (Z.shiftr_0_r (ip_pack a b c d)).
  rewrite (ip_pack_field a b c d d 0); [reflexivity | lia | field_bits 0].
Qed.

Example ip_pack_300 : ip_octets (ip_pack 300 1 1 1) = (44, 1, 1, 1).
Proof. reflexivity. Qed.

End NetFacts.

(** * Further properties of the line table *)

Module ServerMore.
Import K Server ServerEvents ServerFacts.

Lemma bind_Done {A B} (m : Srv A) (k : A -> Srv B) (s s1 : CTerminalServer)
    (a : A) (t1 : list Event) :
  m s = Done (a, s1, t1) ->
  bind m k s =
    match k a s1 with
    | Done (b, s2, t2) => Done (b, s2, t1 ++ t2)
    | Fail f => Fail f
    end.
Proof. intros H. unfold bind. rewrite H. reflexivity. Qed.

(** [WSAAsyncSelect] failed: no line is looked for. *)
Lemma SocketAccept_select_failed (s : CTerminalServer) (skt nResult : Z)
    (peer : option (Z * Z)) :
  skt <> INVALID_SOCKET -> nResult <> 0%Z ->
  SocketAccept skt nResult peer s = Done (tt, s, [EvLock; EvCloseSocket skt; EvUnlock]).
Proof.
  intros Hskt Hres. unfold SocketAccept.
  destruct (Z.eqb_spec skt INVALID_SOCKET) as [| _]; [contradiction |].
  unfold LockServer, bind at 1 2. simpl.
  destruct (Z.eqb_spec nResult 0%Z) as [| _]; [contradiction |]. simpl.
  rewrite SocketAccept_failed_eq, Nat.ltb_irrefl. reflexivity.
Qed.

Lemma full_or_lowest_free (s : CTerminalServer) :
  Server.sized s -> full (m_apLines s) \/ exists n, lowest_free (m_apLines s) n.
Proof.
  intros Hsized.
  destruct (FindFreeLine_spec s (m_nMaxLines s) 0) as (k & _ & Hcase).
  { simpl. symmetry. exact Hsized. }
  { intros i Hi. lia. }
  destruct Hcase as [[Hfree _] | [_ Hfull]]; [right; exists k; exact Hfree | left; exact Hfull].
Qed.

(** X13: SocketAccept always returns, and a socket it does not register it
    closes.  On a server whose table has its configured size, for every
    answer of the OS and of the connect callback, SocketAccept ends
    normally, takes and releases the lock once around everything else,
    and calls the connect callback at most once; either the new line sits
    in the lowest empty slot with its socket in the map and nothing was
    closed, or the server is exactly as before and the new socket was
    closed once.  When [accept] itself fails nothing happens at all. *)
Theorem X13_SocketAccept_outcomes
    (s : CTerminalServer) (skt nResult : Z) (peer : option (Z * Z)) :
  Server.sized s ->
  SocketAccept INVALID_SOCKET nResult peer s = Done (tt, s, []) /\
  (skt <> INVALID_SOCKET ->
   exists s' mid,
     SocketAccept skt nResult peer s = Done (tt, s', EvLock :: mid ++ [EvUnlock]) /\
     Forall (fun e => e <> EvLock /\ e <> EvUnlock) mid /\
     length (connect_calls mid) <= 1 /\
     ((s' = s /\ closed_sockets mid = [skt]) \/
      (exists n, lowest_free (m_apLines s) n /\ nResult = 0%Z /\ accepted s n /\
                 m_apLines s' = <[n := Some (Line.new n skt peer)]> (m_apLines s) /\
                 m_mapSocket s' = <[skt := n]> (m_mapSocket s) /\
                 closed_sockets mid = []))).
Proof.
  intros Hsized. split; [reflexivity |]. intros Hskt.
  destruct (Z.eq_dec nResult 0%Z) as [-> | Hres].
  2: { exists s, [EvCloseSocket skt].
       split; [apply SocketAccept_select_failed; assumption |].
       split; [repeat constructor; discriminate |].
       split; [simpl; lia | left; split; reflexivity]. }
  destruct (full_or_lowest_free s Hsized) as [Hfull | [n Hfree]].
  { exists s, [EvCloseSocket skt].
    split; [apply SocketAccept_full; assumption |].
    split; [repeat constructor; discriminate |].
    split; [simpl; lia | left; split; reflexivity]. }
  destruct (m_pConnectCallback s) as [cb |] eqn:Ecb.
  - destruct (cb n) eqn:Ecbn.
    + eexists _, [EvConnect n _].
      split.
      { rewrite (SocketAccept_lowest s skt peer n Hsized Hfree Hskt).
        - rewrite Ecb. reflexivity.
        - unfold accepted. rewrite Ecb. exact Ecbn. }
      split; [repeat constructor; discriminate |].
      split; [simpl; lia |]. right. exists n.
      split; [exact Hfree | split; [reflexivity | split]].
      { unfold accepted. rewrite Ecb. exact Ecbn. }
      split; [reflexivity | split; reflexivity].
    + exists s, [EvConnect n (<[n := Some (Line.new n skt peer)]> (m_apLines s));
                 EvCloseSocket skt].
      split; [apply (SocketAccept_refused s skt peer n cb); assumption |].
      split; [repeat constructor; discriminate |].
      split; [simpl; lia | left; split; reflexivity].
  - eexists _, [].
    split.
    { rewrite (SocketAccept_lowest s skt peer n Hsized Hfree Hskt).
      - rewrite Ecb. reflexivity.
      - unfold accepted. rewrite Ecb. exact I. }
    split; [constructor |].
    split; [simpl; lia |]. right. exists n.
    split; [exact Hfree | split; [reflexivity | split]].
    { unfold accepted. rewrite Ecb. exact I. }
    split; [reflexivity | split; reflexivity].
Qed.

Lemma X13_SocketAccept_outcomes_witness :
  Server.sized srv_one /\ 9%Z <> INVALID_SOCKET /\
  SocketAccept INVALID_SOCKET 0 None srv_one = Done (tt, srv_one, []) /\
  exists s' mid,
    SocketAccept 9 0 None srv_one = Done (tt, s', EvLock :: mid ++ [EvUnlock]) /\
    Forall (fun e => e <> EvLock /\ e <> EvUnlock) mid /\
    length (connect_calls mid) <= 1.
Proof.
  assert (Hskt : 9%Z <> INVALID_SOCKET) by (unfold INVALID_SOCKET; lia).
  split; [reflexivity | split; [exact Hskt |]].
  split; [exact (proj1 (X13_SocketAccept_outcomes srv_one 9 0 None eq_refl)) |].
  destruct (proj2 (X13_SocketAccept_outcomes srv_one 9 0 None eq_refl) Hskt)
    as (s' & mid & H1 & H2 & H3 & _).
  exists s', mid. split; [exact H1 | split; [exact H2 | exact H3]].
Defined.

(** ** The table invariant *)

Lemma wf_new (pReceive : bool) (pConnect : option (nat -> bool)) (pDisconnect : bool)
    (nMaxLines : nat) (s : CTerminalServer) :
  Server.new false pReceive pConnect pDisconnect nMaxLines = Done s -> wf_server s.
Proof.
  intros H. apply new_inv in H as (_ & _ & _ & ->). split; [| split].
  - unfold Server.sized. simpl. apply length_replicate.
  - intros skt n. simpl. rewrite lookup_empty. split; [discriminate |].
    intros (l & Hl & _). apply lookup_replicate in Hl as [Hl _]. discriminate.
  - intros n l Hl. simpl in Hl. apply lookup_replicate in Hl as [Hl _]. discriminate.
Qed.

(** Taking a line out of both tables. *)
Lemma wf_remove (s : CTerminalServer) (n : nat) (line : CTerminalLine) :
  wf_server s -> m_apLines s !! n = Some (Some line) ->
  wf_server (with_mapSocket (delete (m_ClientSocket line) (m_mapSocket s))
               (with_apLines (<[n := None]> (m_apLines s)) s)).
Proof.
  intros (Hsized & Hcons & Hnum) Hline.
  assert (Hlt : n < length (m_apLines s)) by (eapply lookup_lt_Some, Hline).
  split; [| split].
  - unfold Server.sized. simpl. rewrite length_insert. exact Hsized.
  - intros skt k. simpl. split.
    + intros Hk. apply lookup_delete_Some in Hk as [Hne Hk].
      apply Hcons in Hk as (l & Hl & Hskt). exists l. split; [| exact Hskt].
      rewrite list_lookup_insert_ne; [exact Hl |].
      intros ->. rewrite Hline in Hl. injection Hl as <-. congruence.
    + intros (l & Hl & Hskt).
      destruct (Nat.eq_dec n k) as [-> | Hne].
      { rewrite list_lookup_insert_eq in Hl by exact Hlt. discriminate. }
      rewrite list_lookup_insert_ne in Hl by exact Hne.
      apply lookup_delete_Some. split.
      * intros Heq. apply Hne.
        assert (H1 : m_mapSocket s !! m_ClientSocket line = Some n)
          by (apply Hcons; exists line; split; [exact Hline | reflexivity]).
        assert (H2 : m_mapSocket s !! skt = Some k)
          by (apply Hcons; exists l; split; assumption).
        rewrite <- Heq in H2. congruence.
      * apply Hcons. exists l. split; assumption.
  - intros k l Hl. simpl in Hl.
    destruct (Nat.eq_dec n k) as [-> | Hne].
    + rewrite list_lookup_insert_eq in Hl by exact Hlt. discriminate.
    + rewrite list_lookup_insert_ne in Hl by exact Hne. apply Hnum. exact Hl.
Qed.

(** Putting a new line, on a socket not yet in the map, in an empty slot. *)
Lemma wf_insert (s : CTerminalServer) (n : nat) (skt : Z) (peer : option (Z * Z)) :
  wf_server s -> m_apLines s !! n = Some None -> m_mapSocket s !! skt = None ->
  wf_server (with_mapSocket (<[skt := n]> (m_mapSocket s))
               (with_apLines (<[n := Some (Line.new n skt peer)]> (m_apLines s)) s)).
Proof.
  intros (Hsized & Hcons & Hnum) Hslot Hfresh.
  assert (Hlt : n < length (m_apLines s)) by (eapply lookup_lt_Some, Hslot).
  split; [| split].
  - unfold Server.sized. simpl. rewrite length_insert. exact Hsized.
  - intros skt' k. simpl.
    destruct (Z.eq_dec skt skt') as [<- | Hskt].
    + rewrite lookup_insert_eq. split.
      * intros [= <-]. exists (Line.new n skt peer).
        split; [apply list_lookup_insert_eq; exact Hlt | reflexivity].
      * intros (l & Hl & Hsock). destruct (Nat.eq_dec n k) as [-> | Hne]; [reflexivity |].
        rewrite list_lookup_insert_ne in Hl by exact Hne.
        assert (H1 : m_mapSocket s !! skt = Some k)
          by (apply Hcons; exists l; split; assumption).
        congruence.
    + rewrite lookup_insert_ne by exact Hskt. split.
      * intros Hk. apply Hcons in Hk as (l & Hl & Hsock). exists l. split; [| exact Hsock].
        rewrite list_lookup_insert_ne; [exact Hl |]. intros ->. congruence.
      * intros (l & Hl & Hsock). destruct (Nat.eq_dec n k) as [-> | Hne].
        { rewrite list_lookup_insert_eq in Hl by exact Hlt.
          injection Hl as <-. simpl in Hsock. contradiction. }
        rewrite list_lookup_insert_ne in Hl by exact Hne.
        apply Hcons. exists l. split; assumption.
  - intros k l Hl. simpl in Hl. destruct (Nat.eq_dec n k) as [-> | Hne].
    + rewrite list_lookup_insert_eq in Hl by exact Hlt. injection Hl as <-. reflexivity.
    + rewrite list_lookup_insert_ne in Hl by exact Hne. apply Hnum. exact Hl.
Qed.

(** Replacing a line by itself in another engine state. *)
Lemma wf_update (s : CTerminalServer) (n : nat) (line line' : CTerminalLine) :
  wf_server s -> m_apLines s !! n = Some (Some line) -> same_identity line line' ->
  wf_server (with_apLines (<[n := Some line']> (m_apLines s)) s).
Proof.
  intros (Hsized & Hcons & Hnum) Hline (Hid1 & Hid2 & _).
  assert (Hlt : n < length (m_apLines s)) by (eapply lookup_lt_Some, Hline).
  split; [| split].
  - unfold Server.sized. simpl. rewrite length_insert. exact Hsized.
  - intros skt k. simpl. rewrite (Hcons skt k). split.
    + intros (l & Hl & Hsock). destruct (Nat.eq_dec n k) as [-> | Hne].
      * exists line'. split; [apply list_lookup_insert_eq; exact Hlt |]. congruence.
      * exists l. split; [| exact Hsock]. rewrite list_lookup_insert_ne; assumption.
    + intros (l & Hl & Hsock). destruct (Nat.eq_dec n k) as [-> | Hne].
      * rewrite list_lookup_insert_eq in Hl by exact Hlt. injection Hl as <-.
        exists line. split; [exact Hline | congruence].
      * rewrite list_lookup_insert_ne in Hl by exact Hne. exists l. split; assumption.
  - intros k l Hl. simpl in Hl. destruct (Nat.eq_dec n k) as [-> | Hne].
    + rewrite list_lookup_insert_eq in Hl by exact Hlt. injection Hl as <-.
      rewrite Hid1. apply Hnum. exact Hline.
    + rewrite list_lookup_insert_ne in Hl by exact Hne. apply Hnum. exact Hl.
Qed.

Lemma Disconnect_wf (s s' : CTerminalServer) (n : nat) (tr : list Event) :
  wf_server s -> Disconnect n s = Done (tt, s', tr) -> wf_server s'.
Proof.
  intros Hwf H. destruct (m_apLines s !! n) as [[line |] |] eqn:E.
  - rewrite (Disconnect_connected s n line E) in H. injection H as <- _.
    apply wf_remove; assumption.
  - rewrite (Disconnect_empty_slot s n E) in H. discriminate.
  - rewrite (Disconnect_no_slot s n E) in H. discriminate.
Qed.

Lemma SocketRead_wf (s s' : CTerminalServer) (skt : Z) (n : nat)
    (cbBuffer : Z) (szBuffer : list Z) (tr : list Event) :
  wf_server s -> m_mapSocket s !! skt = Some n ->
  SocketRead skt cbBuffer szBuffer s = Done (tt, s', tr) -> wf_server s'.
Proof.
  intros Hwf Hskt H. pose proof Hwf as (_ & Hcons & _).
  destruct (proj1 (Hcons skt n) Hskt) as (line & Hline & _).
  rewrite (SocketRead_connected s skt n line cbBuffer szBuffer Hskt Hline) in H.
  destruct (cbBuffer =? SOCKET_ERROR)%Z; [injection H as <- _; exact Hwf |].
  destruct (cbBuffer =? 0)%Z; [eapply Disconnect_wf; eassumption |].
  unfold on_line in H.
  pose proof (LineMore.ReceiveAll_events
                (take (Z.to_nat cbBuffer) szBuffer) line) as [Hid _].
  unfold Line.exec in Hid.
  destruct (Line.ReceiveAll (take (Z.to_nat cbBuffer) szBuffer) line) as [[u line'] t].
  simpl in Hid. unfold store_line, set_apLines, bind, this in H. simpl in H.
  injection H as <- _. eapply wf_update; eassumption.
Qed.

Lemma SocketAccept_wf (s s' : CTerminalServer) (skt nResult : Z)
    (peer : option (Z * Z)) (tr : list Event) :
  wf_server s -> m_mapSocket s !! skt = None ->
  SocketAccept skt nResult peer s = Done (tt, s', tr) -> wf_server s'.
Proof.
  intros Hwf Hfresh H. pose proof Hwf as (Hsized & _).
  destruct (Z.eq_dec skt INVALID_SOCKET) as [-> | Hskt].
  { injection H as <- _. exact Hwf. }
  destruct (Z.eq_dec nResult 0%Z) as [-> | Hres].
  2: { rewrite SocketAccept_select_failed in H by assumption.
       injection H as <- _. exact Hwf. }
  destruct (full_or_lowest_free s Hsized) as [Hfull | [n Hfree]].
  { rewrite SocketAccept_full in H by assumption. injection H as <- _. exact Hwf. }
  destruct (m_pConnectCallback s) as [cb |] eqn:Ecb.
  - destruct (cb n) eqn:Ecbn.
    + rewrite (SocketAccept_lowest s skt peer n Hsized Hfree Hskt) in H
        by (unfold accepted; rewrite Ecb; exact Ecbn).
      injection H as <- _. apply wf_insert; [exact Hwf | apply Hfree | exact Hfresh].
    + rewrite (SocketAccept_refused s skt peer n cb Hsized Hfree Hskt Ecb Ecbn) in H.
      injection H as <- _. exact Hwf.
  - rewrite (SocketAccept_lowest s skt peer n Hsized Hfree Hskt) in H
      by (unfold accepted; rewrite Ecb; exact I).
    injection H as <- _. apply wf_insert; [exact Hwf | apply Hfree | exact Hfresh].
Qed.

(** ** StopServer *)

Lemma disconnect_calls_app (t1 t2 : list Event) :
  disconnect_calls (t1 ++ t2) = disconnect_calls t1 ++ disconnect_calls t2.
Proof. apply flat_map_app. Qed.

Lemma closed_sockets_app (t1 t2 : list Event) :
  closed_sockets (t1 ++ t2) = closed_sockets t1 ++ closed_sockets t2.
Proof. apply flat_map_app. Qed.

Lemma connect_calls_app (t1 t2 : list Event) :
  connect_calls (t1 ++ t2) = connect_calls t1 ++ connect_calls t2.
Proof. apply flat_map_app. Qed.

(** The loop of StopServer from slot [i] on: the slots from [i] on end up
    empty, and the callbacks and closes are those of the lines found
    there, in line order. *)
Lemma StopServer_loop_spec (remaining i : nat) (s : CTerminalServer) :
  wf_server s -> i + remaining = length (m_apLines s) ->
  exists s' tr,
    StopServer_loop remaining i s = Done (tt, s', tr) /\
    wf_server s' /\
    m_apLines s' = take i (m_apLines s) ++ replicate remaining None /\
    m_pDisconnectCallback s' = m_pDisconnectCallback s /\
    disconnect_calls tr =
      (if m_pDisconnectCallback s
       then (lines_from i (drop i (m_apLines s))).*1 else []) /\
    closed_sockets tr = (lines_from i (drop i (m_apLines s))).*2 /\
    connect_calls tr = [] /\ delivered tr = [] /\ outbound tr = [].
Proof.
  revert i s. induction remaining as [| r IH]; intros i s Hwf Hlen.
  - exists s, []. split; [reflexivity | split; [exact Hwf |]].
    rewrite drop_ge by lia. rewrite take_ge by lia. rewrite app_nil_r.
    destruct (m_pDisconnectCallback s); repeat split; reflexivity.
  - assert (Hlt : i < length (m_apLines s)) by lia.
    destruct (lookup_lt_is_Some_2 _ _ Hlt) as [p Hp].
    cbn [StopServer_loop].
    destruct p as [line |].
    + pose proof (Disconnect_connected s i line Hp) as Hd.
      set (s1 := with_mapSocket (delete (m_ClientSocket line) (m_mapSocket s))
                   (with_apLines (<[i := None]> (m_apLines s)) s)) in *.
      assert (Hstep : bind this (fun s0 => when (IsLineConnected i s0) (Disconnect i)) s
                      = Disconnect i s).
      { unfold bind, this, IsLineConnected, is_occupied. rewrite Hp. simpl.
        rewrite Hd. reflexivity. }
      destruct (IH (S i) s1) as (s' & tr & Hloop & Hwf' & Hv & Hcb & Hdc & Hcl & Hcc & Hde & Hou).
      { apply wf_remove; assumption. }
      { subst s1. simpl. rewrite length_insert. lia. }
      eexists s', _. split.
      { rewrite (bind_Done _ _ s s1 tt _ (eq_trans Hstep Hd)), Hloop. reflexivity. }
      split; [exact Hwf' |].
      assert (Hdrop : drop (S i) (m_apLines s1) = drop (S i) (m_apLines s)).
      { subst s1. simpl. apply drop_insert_lt. lia. }
      rewrite Hdrop in Hdc, Hcl.
      rewrite (drop_S _ _ _ Hp). simpl lines_from.
      split.
      { rewrite Hv. subst s1. simpl.
        rewrite (take_S_r _ _ None) by (apply list_lookup_insert_eq; exact Hlt).
        rewrite take_insert_ge by lia. rewrite <- app_assoc. reflexivity. }
      split; [rewrite Hcb; reflexivity |].
      rewrite disconnect_calls_app, closed_sockets_app, connect_calls_app,
        LineMore.delivered_app, LineMore.outbound_app, Hdc, Hcl, Hcc, Hde, Hou.
      subst s1. simpl m_pDisconnectCallback.
      destruct (m_pDisconnectCallback s); repeat split; reflexivity.
    + assert (Hstep : bind this (fun s0 => when (IsLineConnected i s0) (Disconnect i)) s
                      = Done (tt, s, [])).
      { unfold bind, this, IsLineConnected, is_occupied. rewrite Hp. reflexivity. }
      destruct (IH (S i) s Hwf ltac:(lia))
        as (s' & tr & Hloop & Hwf' & Hv & Hcb & Hdc & Hcl & Hrest).
      exists s', tr. split.
      { rewrite (bind_Done _ _ s s tt _ Hstep), Hloop. reflexivity. }
      split; [exact Hwf' |].
      rewrite (drop_S _ _ _ Hp). simpl lines_from.
      split.
      { rewrite Hv, (take_S_r _ _ None) by exact Hp.
        rewrite <- app_assoc. reflexivity. }
      split; [exact Hcb | split; [exact Hdc | split; [exact Hcl | exact Hrest]]].
Qed.

(** StopServer on a running server is its loop. *)
Lemma StopServer_running (s : CTerminalServer) (idServerThread : Z) :
  idServerThread <> 0%Z ->
  StopServer idServerThread s =
    match StopServer_loop (m_nMaxLines s) 0 s with
    | Done (_, s', tr) => Done (0%Z, s', tr)
    | Fail f => Fail f
    end.
Proof.
  intros Hid. unfold StopServer.
  destruct (Z.eqb_spec idServerThread 0); [contradiction |].
  unfold bind at 1. unfold this at 1. unfold bind.
  destruct (StopServer_loop (m_nMaxLines s) 0 s) as [[[u s'] tr] | f]; [| reflexivity].
  simpl. rewrite app_nil_r. reflexivity.
Qed.

(** X16: StopServer takes every line down, once, in line order.  On a
    running server that satisfies the table invariant, StopServer ends
    normally and reports the server stopped; it calls the disconnect
    callback (if the host gave one) once for each connected line and
    closes each line's socket once, in increasing line order, and calls
    nothing else; afterwards every slot is empty and the socket map is
    empty.  On a server that is not running it does nothing. *)
Theorem X16_StopServer_disconnects_every_line (s : CTerminalServer) (idServerThread : Z) :
  wf_server s ->
  StopServer 0 s = Done (0%Z, s, []) /\
  (idServerThread <> 0%Z ->
   exists s' tr,
     StopServer idServerThread s = Done (0%Z, s', tr) /\
     m_apLines s' = replicate (length (m_apLines s)) None /\
     m_mapSocket s' = ∅ /\
     wf_server s' /\
     disconnect_calls tr =
       (if m_pDisconnectCallback s then (lines_from 0 (m_apLines s)).*1 else []) /\
     closed_sockets tr = (lines_from 0 (m_apLines s)).*2 /\
     connect_calls tr = [] /\ delivered tr = [] /\ outbound tr = []).
Proof.
  intros Hwf. split; [reflexivity |]. intros Hid.
  pose proof Hwf as (Hsized & _).
  destruct (StopServer_loop_spec (m_nMaxLines s) 0 s Hwf)
    as (s' & tr & Hloop & Hwf' & Hv & _ & Hdc & Hcl & Hcc & Hde & Hou).
  { simpl. symmetry. exact Hsized. }
  simpl in Hv. rewrite <- Hsized in Hv. rewrite drop_0 in Hdc, Hcl.
  exists s', tr. split.
  { rewrite (StopServer_running s idServerThread Hid), Hloop. reflexivity. }
  split; [exact Hv |]. split.
  { apply map_empty. intros skt.
    destruct (m_mapSocket s' !! skt) as [n |] eqn:E; [| reflexivity].
    destruct Hwf' as (_ & Hcons & _). apply Hcons in E as (l & Hl & _).
    rewrite Hv in Hl. apply lookup_replicate in Hl as [Hl _]. discriminate. }
  split; [exact Hwf' |].
  split; [exact Hdc | split; [exact Hcl | split; [exact Hcc | split; [exact Hde | exact Hou]]]].
Qed.

Lemma wf_srv_one : wf_server srv_one.
Proof.
  apply (SocketAccept_wf (mkServer 2 [None; None] ∅ None true true) srv_one 7 0 None
           [EvLock; EvUnlock]); [| reflexivity | reflexivity].
  apply (wf_new true None true 2). reflexivity.
Qed.

Lemma wf_srv_full : wf_server srv_full.
Proof.
  apply (SocketAccept_wf (mkServer 2 [Some line0; None] {[ 7%Z := 0 ]}
                            (Some (fun _ => true)) true true)
           srv_full 8 0 None
           [EvLock; EvConnect 1 [Some line0; Some (Line.new 1 8 None)]; EvUnlock]);
    [| reflexivity | reflexivity].
  apply (SocketAccept_wf (mkServer 2 [None; None] ∅ (Some (fun _ => true)) true true)
           _ 7 0 None [EvLock; EvConnect 0 [Some line0; None]; EvUnlock]);
    [| reflexivity | reflexivity].
  apply (wf_new true (Some (fun _ => true)) true 2). reflexivity.
Qed.

Lemma X16_StopServer_witness :
  wf_server srv_full /\ 4242%Z <> 0%Z /\
  StopServer 4242 srv_full =
    Done (0%Z, mkServer 2 [None; None] ∅ (Some (fun _ => true)) true true,
          [EvDisconnect 0 [Some line0; Some (Line.new 1 8 None)];
           EvCloseSocket 7; EvUnlock;
           EvDisconnect 1 [None; Some (Line.new 1 8 None)];
           EvCloseSocket 8; EvUnlock]) /\
  exists s' tr, StopServer 4242 srv_full = Done (0%Z, s', tr) /\
                m_apLines s' = [None; None] /\ m_mapSocket s' = ∅ /\
                disconnect_calls tr = [0; 1] /\ closed_sockets tr = [7%Z; 8%Z].
Proof.
  assert (Hid : 4242%Z <> 0%Z) by lia.
  split; [exact wf_srv_full | split; [exact Hid | split; [reflexivity |]]].
  destruct (proj2 (X16_StopServer_disconnects_every_line srv_full 4242 wf_srv_full) Hid)
    as (s' & tr & H1 & H2 & H3 & _ & H5 & H6 & _).
  exists s', tr. split; [exact H1 | split; [exact H2 | split; [exact H3 |]]].
  split; [exact H5 | exact H6].
Defined.

(** X14: the two tables stay in step.  The constructor sets up, and
    SocketAccept (for a socket handle not yet in the map), SocketRead (for
    a socket in the map), Disconnect and StopServer each keep, the table
    invariant: the line array has the configured size, a socket is mapped
    to a line exactly when that line is in its slot with that socket, and
    each line carries the number of its slot. *)
Theorem X14_table_invariant_is_kept (s : CTerminalServer) :
  wf_server s ->
  (forall skt nResult peer s' tr,
     m_mapSocket s !! skt = None ->
     SocketAccept skt nResult peer s = Done (tt, s', tr) -> wf_server s') /\
  (forall skt n cbBuffer szBuffer s' tr,
     m_mapSocket s !! skt = Some n ->
     SocketRead skt cbBuffer szBuffer s = Done (tt, s', tr) -> wf_server s') /\
  (forall n s' tr, Disconnect n s = Done (tt, s', tr) -> wf_server s') /\
  (forall idServerThread id' s' tr,
     StopServer idServerThread s = Done (id', s', tr) -> wf_server s') /\
  (forall pReceive pConnect pDisconnect nMaxLines s0,
     Server.new false pReceive pConnect pDisconnect nMaxLines = Done s0 -> wf_server s0).
Proof.
  intros Hwf. split; [| split; [| split; [| split]]].
  - intros skt nResult peer s' tr Hfresh H. eapply SocketAccept_wf; eassumption.
  - intros skt n cb buf s' tr Hskt H. eapply SocketRead_wf; eassumption.
  - intros n s' tr H. eapply Disconnect_wf; eassumption.
  - intros id id' s' tr H.
    destruct (Z.eq_dec id 0%Z) as [-> | Hid].
    + injection H as _ <- _. exact Hwf.
    + pose proof Hwf as (Hsized & _).
      destruct (StopServer_loop_spec (m_nMaxLines s) 0 s Hwf)
        as (s1 & tr1 & Hloop & Hwf1 & _).
      { simpl. symmetry. exact Hsized. }
      rewrite (StopServer_running s id Hid), Hloop in H.
      injection H as _ <- _. exact Hwf1.
  - intros pr pc pd n s0 H. eapply wf_new, H.
Qed.

Lemma X14_table_invariant_witness :
  wf_server srv_one /\
  m_mapSocket srv_one !! 9%Z = None /\
  (forall s' tr, SocketAccept 9 0 None srv_one = Done (tt, s', tr) -> wf_server s') /\
  (forall s' tr, Disconnect 0 srv_one = Done (tt, s', tr) -> wf_server s').
Proof.
  split; [exact wf_srv_one | split; [reflexivity |]].
  split.
  - intros s' tr H.
    exact (proj1 (X14_table_invariant_is_kept srv_one wf_srv_one) 9%Z 0%Z None s' tr eq_refl H).
  - intros s' tr H.
    exact (proj1 (proj2 (proj2 (X14_table_invariant_is_kept srv_one wf_srv_one))) 0 s' tr H).
Defined.

(** X15: there are never more active lines than slots.  Under the table
    invariant, ActiveLines (the size of the socket map) is at most
    MaximumLines (the size of the line array). *)
Theorem X15_ActiveLines_at_most_MaximumLines (s : CTerminalServer) :
  wf_server s -> ActiveLines s <= MaximumLines s.
Proof.
  intros (_ & Hcons & _). unfold ActiveLines, MaximumLines.
  rewrite <- length_map_to_list.
  rewrite <- (length_fmap snd (map_to_list (m_mapSocket s))).
  rewrite <- (length_seq (length (m_apLines s)) 0).
  apply submseteq_length, NoDup_submseteq.
  - apply NoDup_fmap_2_strong; [| apply NoDup_map_to_list].
    intros [skt1 n1] [skt2 n2] H1 H2 Heq. simpl in Heq. subst n2.
    apply elem_of_map_to_list in H1, H2.
    apply Hcons in H1 as (l1 & Hl1 & Hs1). apply Hcons in H2 as (l2 & Hl2 & Hs2).
    rewrite Hl1 in Hl2. injection Hl2 as <-. congruence.
  - intros n Hn. apply list_elem_of_fmap in Hn as ([skt n'] & -> & Hin).
    apply elem_of_map_to_list in Hin. apply Hcons in Hin as (l & Hl & _).
    apply elem_of_seq. simpl. split; [lia |]. eapply lookup_lt_Some, Hl.
Qed.

Lemma X15_ActiveLines_witness :
  wf_server srv_full /\ ActiveLines srv_full <= MaximumLines srv_full.
Proof.
  split; [exact wf_srv_full |].
  exact (X15_ActiveLines_at_most_MaximumLines srv_full wf_srv_full).
Defined.

(** ** The window procedure *)

Lemma SocketToLine_unknown (s : CTerminalServer) (skt : Z) :
  m_mapSocket s !! skt = None ->
  SocketToLine skt s = Done (0, with_mapSocket (<[skt := 0]> (m_mapSocket s)) s, []).
Proof.
  intros H. unfold SocketToLine, bind, this, set_mapSocket, ret. rewrite H. reflexivity.
Qed.

(** X17: how a close event finds its line.  A socket message that carries
    an error is dropped: nothing is called and nothing changes.  A close
    event for a socket in the map disconnects exactly the line of that
    socket: its slot and its map entry are cleared, its socket is closed
    once, and the table invariant holds afterwards.  A close event for a
    socket that is not (or no longer) in the map is taken for line 0: with
    slot 0 empty the assertion of Disconnect fails, and with a line in slot
    0 it is that line that is disconnected and whose socket is closed,
    while the unknown socket stays in the map, mapped to the now empty
    line 0. *)
Theorem X17_close_event_routing (s : CTerminalServer) (skt : Z) :
  wf_server s ->
  (forall wEvent wError, wError <> 0%Z ->
     ServerWindowProcedure wEvent wError skt s = Done (false, s, [])) /\
  (forall n, m_mapSocket s !! skt = Some n ->
     exists line s' tr,
       m_apLines s !! n = Some (Some line) /\
       ServerWindowProcedure FD_CLOSE 0 skt s = Done (true, s', tr) /\
       Disconnect n s = Done (tt, s', tr) /\
       m_apLines s' = <[n := None]> (m_apLines s) /\
       m_mapSocket s' = delete skt (m_mapSocket s) /\
       closed_sockets tr = [skt] /\
       wf_server s') /\
  (m_mapSocket s !! skt = None ->
   (m_apLines s !! 0 = Some None ->
    ServerWindowProcedure FD_CLOSE 0 skt s = Fail AssertFailed) /\
   (forall line0, m_apLines s !! 0 = Some (Some line0) ->
      exists s' tr,
        ServerWindowProcedure FD_CLOSE 0 skt s = Done (true, s', tr) /\
        m_apLines s' = <[0 := None]> (m_apLines s) /\
        closed_sockets tr = [m_ClientSocket line0] /\
        m_mapSocket s' !! skt = Some 0 /\
        m_mapSocket s' !! m_ClientSocket line0 = None)).
Proof.
  intros Hwf. pose proof Hwf as (_ & Hcons & _). split; [| split].
  - intros wEvent wError Herr. unfold ServerWindowProcedure.
    destruct (Z.eqb_spec wError 0); [contradiction | reflexivity].
  - intros n Hskt. destruct (proj1 (Hcons skt n) Hskt) as (line & Hline & Hsock).
    pose proof (Disconnect_connected s n line Hline) as Hd.
    rewrite Hsock in Hd.
    eexists line, _, _. split; [exact Hline |]. split.
    { unfold ServerWindowProcedure. simpl.
      rewrite (bind_Done _ _ s _ tt _
                 (eq_trans (bind_left_id _ _ s n (SocketToLine_known s skt n Hskt)) Hd)).
      simpl. rewrite app_nil_r. reflexivity. }
    split; [exact Hd |].
    split; [reflexivity | split; [reflexivity | split]].
    + destruct (m_pDisconnectCallback s); reflexivity.
    + rewrite <- Hsock. apply wf_remove; assumption.
  - intros Hnone.
    pose proof (SocketToLine_unknown s skt Hnone) as Hlook.
    set (s1 := with_mapSocket (<[skt := 0]> (m_mapSocket s)) s) in *.
    split.
    + intros Hslot. unfold ServerWindowProcedure. simpl.
      unfold bind at 1. unfold bind at 1. rewrite Hlook.
      rewrite (Disconnect_empty_slot s1 0 Hslot). reflexivity.
    + intros l0 Hslot.
      pose proof (Disconnect_connected s1 0 l0 Hslot) as Hd.
      assert (Hne : m_ClientSocket l0 <> skt).
      { intros Heq.
        assert (H0 : m_mapSocket s !! m_ClientSocket l0 = Some 0)
          by (apply Hcons; exists l0; split; [exact Hslot | reflexivity]).
        rewrite Heq in H0. congruence. }
      eexists _, _. split.
      { unfold ServerWindowProcedure. simpl.
        unfold bind at 1. unfold bind at 1. rewrite Hlook, Hd. reflexivity. }
      split; [reflexivity |]. split.
      { subst s1. simpl. destruct (m_pDisconnectCallback s); reflexivity. }
      split.
      { subst s1. simpl. rewrite lookup_delete_ne by exact Hne. apply lookup_insert_eq. }
      { subst s1. simpl. apply lookup_delete_eq. }
Qed.

Lemma X17_close_event_routing_witness :
  wf_server srv_one /\
  ServerWindowProcedure FD_CLOSE 10053 7 srv_one = Done (false, srv_one, []) /\
  m_mapSocket srv_one !! 7%Z = Some 0 /\
  (exists s' tr, ServerWindowProcedure FD_CLOSE 0 7 srv_one = Done (true, s', tr) /\
                 closed_sockets tr = [7%Z]) /\
  m_mapSocket srv_one !! 9%Z = None /\
  (exists s' tr, ServerWindowProcedure FD_CLOSE 0 9 srv_one = Done (true, s', tr) /\
                 closed_sockets tr = [7%Z] /\ m_mapSocket s' !! 9%Z = Some 0).
Proof.
  pose proof (X17_close_event_routing srv_one 7 wf_srv_one) as (Herr & Hknown & _).
  pose proof (X17_close_event_routing srv_one 9 wf_srv_one) as (_ & _ & Hunknown).
  split; [exact wf_srv_one |].
  split; [apply Herr; lia |].
  split; [reflexivity |].
  split.
  { destruct (Hknown 0 eq_refl) as (line & s' & tr & _ & H1 & _ & _ & _ & H2 & _).
    exists s', tr. split; [exact H1 | exact H2]. }
  split; [reflexivity |].
  destruct (proj2 (Hunknown eq_refl) line0 eq_refl) as (s' & tr & H1 & _ & H2 & H3 & _).
  exists s', tr. split; [exact H1 | split; [exact H2 | exact H3]].
Defined.

(** ** One connection at a time *)

(** X18: the bytes of one connection touch that connection only.  Under
    the table invariant, a read of [n > 0] bytes on a socket in the map
    ends normally, leaves the socket map and every other slot as they
    were, and puts back in the line's slot the same line (same number,
    socket and address) in its new engine state; every receive callback
    it makes carries that line's number, every write goes to that socket,
    and nothing is closed. *)
Theorem X18_SocketRead_touches_one_line
    (s : CTerminalServer) (skt : Z) (n : nat) (cbBuffer : Z) (szBuffer : list Z) :
  wf_server s -> m_mapSocket s !! skt = Some n -> (0 < cbBuffer)%Z ->
  exists line line' tr,
    m_apLines s !! n = Some (Some line) /\
    SocketRead skt cbBuffer szBuffer s =
      Done (tt, with_apLines (<[n := Some line']> (m_apLines s)) s, tr) /\
    same_identity line line' /\
    (forall i, i <> n ->
       <[n := Some line']> (m_apLines s) !! i = m_apLines s !! i) /\
    (forall e, In e tr ->
       (exists ch, e = EvReceive n ch) \/ (exists abData, e = EvSend skt abData)) /\
    closed_sockets tr = [] /\
    wf_server (with_apLines (<[n := Some line']> (m_apLines s)) s).
Proof.
  intros Hwf Hskt Hcb. pose proof Hwf as (_ & Hcons & Hnum).
  destruct (proj1 (Hcons skt n) Hskt) as (line & Hline & Hsock).
  pose proof (Hnum n line Hline) as Hn.
  pose proof (LineMore.ReceiveAll_events (take (Z.to_nat cbBuffer) szBuffer) line)
    as [Hid Hev].
  pose proof (SocketRead_connected s skt n line cbBuffer szBuffer Hskt Hline) as Hread.
  destruct (Z.eqb_spec cbBuffer SOCKET_ERROR) as [E | _];
    [unfold SOCKET_ERROR in E; lia |].
  destruct (Z.eqb_spec cbBuffer 0) as [E | _]; [lia |].
  unfold on_line in Hread. unfold Line.exec in Hid, Hev.
  destruct (Line.ReceiveAll (take (Z.to_nat cbBuffer) szBuffer) line) as [[u line'] tr].
  simpl in Hid, Hev.
  exists line, line', tr. split; [exact Hline |].
  split; [exact Hread | split; [exact Hid |]].
  split; [intros i Hi; apply list_lookup_insert_ne; congruence |].
  assert (Hshape : forall e, In e tr ->
            (exists ch, e = EvReceive n ch) \/ (exists abData, e = EvSend skt abData)).
  { intros e He. rewrite Forall_forall in Hev.
    specialize (Hev e (proj2 (list_elem_of_In _ _) He)).
    destruct e as [k ch | k d | | | | |]; simpl in Hev; try contradiction.
    - left. exists ch. congruence.
    - destruct d as [| i [| c [| o [| x d]]]]; try contradiction.
      destruct Hev as (-> & _). right. eexists. rewrite Hsock. reflexivity. }
  split; [exact Hshape | split].
  - clear Hread Hev. induction tr as [| e tr IH]; [reflexivity |].
    destruct (Hshape e (or_introl eq_refl)) as [[ch ->] | [d ->]]; simpl;
      apply IH; intros e' He'; apply Hshape; right; exact He'.
  - eapply wf_update; eassumption.
Qed.

Lemma X18_SocketRead_witness :
  wf_server srv_full /\ m_mapSocket srv_full !! 8%Z = Some 1 /\ (0 < 3)%Z /\
  exists line' tr,
    SocketRead 8 3 [255%Z; 253%Z; 24%Z] srv_full =
      Done (tt, with_apLines (<[1 := Some line']> (m_apLines srv_full)) srv_full, tr) /\
    closed_sockets tr = [].
Proof.
  assert (Hcb : (0 < 3)%Z) by lia.
  split; [exact wf_srv_full | split; [reflexivity | split; [exact Hcb |]]].
  destruct (X18_SocketRead_touches_one_line srv_full 8 1 3 [255%Z; 253%Z; 24%Z]
              wf_srv_full eq_refl Hcb)
    as (line & line' & tr & _ & H1 & _ & _ & _ & H2 & _).
  exists line', tr. split; [exact H1 | exact H2].
Defined.

(** X19: a line that is accepted and then disconnected leaves no trace.
    When SocketAccept registers a connection (a fresh socket, a free line,
    a host that agrees) and Disconnect is then called for the line it
    got, the server is exactly as it was before the accept, and the
    socket has been closed once. *)
Theorem X19_accept_then_disconnect_restores
    (s : CTerminalServer) (skt : Z) (peer : option (Z * Z)) (n : nat) :
  Server.sized s -> skt <> INVALID_SOCKET -> m_mapSocket s !! skt = None ->
  lowest_free (m_apLines s) n -> accepted s n ->
  exists s1 tr1 tr2,
    SocketAccept skt 0 peer s = Done (tt, s1, tr1) /\
    m_apLines s1 !! n = Some (Some (Line.new n skt peer)) /\
    m_mapSocket s1 !! skt = Some n /\
    Disconnect n s1 = Done (tt, s, tr2) /\
    closed_sockets (tr1 ++ tr2) = [skt].
Proof.
  intros Hsized Hskt Hfresh Hfree Hacc.
  assert (Hlt : n < length (m_apLines s)) by (eapply lookup_lt_Some, Hfree).
  pose proof (SocketAccept_lowest s skt peer n Hsized Hfree Hskt Hacc) as Ha.
  set (s1 := with_mapSocket (<[skt := n]> (m_mapSocket s))
               (with_apLines (<[n := Some (Line.new n skt peer)]> (m_apLines s)) s)) in *.
  assert (Hslot : m_apLines s1 !! n = Some (Some (Line.new n skt peer)))
    by (subst s1; simpl; apply list_lookup_insert_eq; exact Hlt).
  pose proof (Disconnect_connected s1 n _ Hslot) as Hd.
  assert (Hback : with_mapSocket (delete skt (m_mapSocket s1))
                    (with_apLines (<[n := None]> (m_apLines s1)) s1) = s).
  { subst s1. unfold with_mapSocket, with_apLines. simpl.
    rewrite delete_insert_eq, (delete_id _ _ Hfresh).
    rewrite list_insert_insert_eq, (list_insert_id _ _ _ (proj1 Hfree)).
    destruct s; reflexivity. }
  simpl m_ClientSocket in Hd. rewrite Hback in Hd.
  eexists s1, _, _. split; [exact Ha |].
  split; [exact Hslot |].
  split; [subst s1; simpl; apply lookup_insert_eq |].
  split; [exact Hd |].
  rewrite closed_sockets_app. subst s1. simpl.
  destruct (m_pConnectCallback s), (m_pDisconnectCallback s); reflexivity.
Qed.

Lemma X19_accept_then_disconnect_witness :
  Server.sized srv_one /\ 9%Z <> INVALID_SOCKET /\ m_mapSocket srv_one !! 9%Z = None /\
  lowest_free (m_apLines srv_one) 1 /\ accepted srv_one 1 /\
  exists s1 tr1 tr2,
    SocketAccept 9 0 None srv_one = Done (tt, s1, tr1) /\
    Disconnect 1 s1 = Done (tt, srv_one, tr2) /\
    closed_sockets (tr1 ++ tr2) = [9%Z].
Proof.
  assert (Hskt : 9%Z <> INVALID_SOCKET) by (unfold INVALID_SOCKET; lia).
  assert (Hfree : lowest_free (m_apLines srv_one) 1).
  { split; [reflexivity |]. intros i Hi. destruct i as [| i]; [reflexivity | lia]. }
  split; [reflexivity | split; [exact Hskt | split; [reflexivity |]]].
  split; [exact Hfree | split; [exact I |]].
  destruct (X19_accept_then_disconnect_restores srv_one 9 None 1
              eq_refl Hskt eq_refl Hfree I)
    as (s1 & tr1 & tr2 & H1 & _ & _ & H2 & H3).
  exists s1, tr1, tr2. split; [exact H1 | split; [exact H2 | exact H3]].
Defined.

End ServerMore.
